(** * h11: the receive buffer ([h11/_receivebuffer.py])

    A shallow embedding of [ReceiveBuffer] and the properties of its
    operations: appending, bounded extraction, delimiter-terminated
    extraction with a resumable search cursor, header-line extraction and
    compaction. *)

From Stdlib Require Import List ZArith Lia Bool.
From Stdlib Require Import Strings.Byte.
Import ListNotations.

Local Open Scope Z_scope.

(** ** Python values used by the module *)

(** [bytes] and [bytearray] objects are sequences of bytes; their contents
    are all the module looks at. *)
Definition bytes := list byte.

Definition LF : byte := x0a.
Definition CR : byte := x0d.
Definition QMARK : byte := x3f.

Fixpoint bytes_eqb (a b : bytes) : bool :=
  match a, b with
  | [], [] => true
  | x :: a', y :: b' => Byte.eqb x y && bytes_eqb a' b'
  | _, _ => false
  end.

(** [len(x)] as a Python integer. *)
Definition len (x : bytes) : Z := Z.of_nat (length x).

(** Normalisation of a slice bound against a sequence of length [n]: a
    negative bound counts from the end, and the result is clamped to
    [0 .. n]. *)
Definition slice_bound (n i : Z) : Z :=
  if i <? 0 then Z.max (i + n) 0 else Z.min i n.

(** [x[lo:hi]]. *)
Definition py_slice (x : bytes) (lo hi : Z) : bytes :=
  let l := slice_bound (len x) lo in
  let h := slice_bound (len x) hi in
  firstn (Z.to_nat (h - l)) (skipn (Z.to_nat l) x).

(** [x[lo:]]. *)
Definition py_slice_from (x : bytes) (lo : Z) : bytes :=
  skipn (Z.to_nat (slice_bound (len x) lo)) x.

(** [del x[:hi]]. *)
Definition py_del_prefix (x : bytes) (hi : Z) : bytes :=
  skipn (Z.to_nat (slice_bound (len x) hi)) x.

(** The values that meet in the comparisons of the module: indexing a
    [bytearray] gives an [int], slicing it gives a byte sequence. *)
Inductive pyval : Type :=
| PyInt (i : Z)
| PyBytes (b : bytes).

(** [a == b]: byte sequences compare by content, integers by value, and an
    integer is never equal to a byte sequence. *)
Definition py_eq (a b : pyval) : bool :=
  match a, b with
  | PyInt i, PyInt j => i =? j
  | PyBytes x, PyBytes y => bytes_eqb x y
  | _, _ => false
  end.

Inductive exn : Type :=
| IndexError
| AssertionError
| ReError.

Inductive result (A : Type) : Type :=
| Ok (a : A)
| Raise (e : exn).
Arguments Ok {A} a.
Arguments Raise {A} e.

(** [x[i]] on a [bytearray]: the byte at [i] as an integer. *)
Definition py_getitem (x : bytes) (i : Z) : result pyval :=
  let j := if i <? 0 then i + len x else i in
  if (j <? 0) || (len x <=? j) then Raise IndexError
  else match nth_error x (Z.to_nat j) with
       | Some b => Ok (PyInt (Z.of_nat (Byte.to_nat b)))
       | None => Raise IndexError
       end.

(** ** Regular expressions

    The delimiter handed to [maybe_extract_until_delimiter] is the source of
    a regular expression, compiled with [re.compile].  The embedding covers
    the patterns the module itself uses and their like: a sequence of
    literal bytes, each of which may carry the greedy optional quantifier
    [?].  Every other construct of the [re] syntax starts with one of the
    special bytes below; [re_compile] answers [None] on those, which the
    buffer turns into the exception [re.compile] raises on a source that is
    not a pattern, and the properties that follow are stated for
    delimiters inside the fragment only.  The flag [re.MULTILINE] only
    changes the anchors, which the fragment does not have. *)

Inductive atom : Type :=
| Lit (c : byte)
| Opt (c : byte).

Definition regex := list atom.

(** The special bytes [. ^ $ * + ? { } [ ] \ | ( )]. *)
Definition is_special (c : byte) : bool :=
  match c with
  | x2e | x5e | x24 | x2a | x2b | x3f | x7b | x7d
  | x5b | x5d | x5c | x7c | x28 | x29 => true
  | _ => false
  end.

Fixpoint re_compile (src : bytes) : option regex :=
  match src with
  | [] => Some []
  | c :: rest =>
      if is_special c then None
      else match rest with
           | x3f :: rest' => option_map (cons (Opt c)) (re_compile rest')
           | _ => option_map (cons (Lit c)) (re_compile rest)
           end
  end.

(** Matching at the head of [s], by backtracking: an optional byte is
    taken first and given up only if the rest then fails.  The answer is
    the length of the match. *)
Fixpoint match_here (r : regex) (s : bytes) : option nat :=
  match r with
  | [] => Some O
  | Lit c :: r' =>
      match s with
      | x :: s' => if Byte.eqb x c then option_map S (match_here r' s') else None
      | [] => None
      end
  | Opt c :: r' =>
      match s with
      | x :: s' =>
          if Byte.eqb x c then
            match match_here r' s' with
            | Some n => Some (S n)
            | None => match_here r' s
            end
          else match_here r' s
      | [] => match_here r' s
      end
  end.

(** The leftmost match in [s], whose first byte sits at offset [off] of the
    searched sequence: the span [(start, end)] of the match. *)
Fixpoint search_from (r : regex) (s : bytes) (off : Z) : option (Z * Z) :=
  match match_here r s with
  | Some n => Some (off, off + Z.of_nat n)
  | None =>
      match s with
      | [] => None
      | _ :: s' => search_from r s' (off + 1)
      end
  end.

(** The bytes a search walks over: the ones it steps past without a match
    and the ones of the match it ends on. *)
Fixpoint search_steps (r : regex) (s : bytes) : nat :=
  match match_here r s with
  | Some n => n
  | None =>
      match s with
      | [] => O
      | _ :: s' => S (search_steps r s')
      end
  end.

(** Where a search of [x] from [pos] starts: [pos] clamped to [0 .. len x]. *)
Definition search_pos (x : bytes) (pos : Z) : Z :=
  Z.min (Z.max pos 0) (len x).

(** [next(r.finditer(x, pos), None)], as the span of the match. *)
Definition finditer_first (r : regex) (x : bytes) (pos : Z) : option (Z * Z) :=
  let p := search_pos x pos in
  search_from r (skipn (Z.to_nat p) x) p.

(** The number of bytes that search walks over. *)
Definition finditer_examined (r : regex) (x : bytes) (pos : Z) : Z :=
  Z.of_nat (search_steps r (skipn (Z.to_nat (search_pos x pos)) x)).

(** [r.split(s)]: the pieces of [s] between the successive leftmost
    matches of [r].  [skip] counts the bytes of the current match still to
    pass, [cur] is the piece being collected.  An empty match splits too
    (as from Python 3.7 on) and the search then moves on by one byte; the
    pattern the module splits on has no empty match. *)
Fixpoint split_go (r : regex) (s : bytes) (skip : nat) (cur : bytes)
  : list bytes :=
  match s with
  | [] =>
      match match_here r [] with
      | Some _ => [cur; []]
      | None => [cur]
      end
  | c :: s' =>
      match skip with
      | S k => split_go r s' k cur
      | O =>
          match match_here r s with
          | Some (S n) => cur :: split_go r s' n []
          | Some O => cur :: split_go r s' O [c]
          | None => split_go r s' O (cur ++ [c])
          end
      end
  end.

Definition re_split (r : regex) (s : bytes) : list bytes :=
  split_go r s O [].

(** The module constants. *)
Definition default_delimiter : bytes := [LF; CR; QMARK; LF].
Definition delimiter_regex : regex := [Lit LF; Opt CR; Lit LF].
Definition line_delimiter_regex : regex := [Opt CR; Lit LF].

(** ** The buffer *)

Record ReceiveBuffer : Type := {
  _data : bytes;
  _start : Z;
  _looked_at : Z;
  _looked_for : bytes;
  _delimiter : bytes;
  _delimiter_regex : regex
}.

Definition __init__ : ReceiveBuffer :=
  {| _data := [];
     _start := 0;
     _looked_at := 0;
     _looked_for := [];
     _delimiter := [LF; CR; QMARK; LF];
     _delimiter_regex := delimiter_regex |}.

Definition set_data (self : ReceiveBuffer) (v : bytes) : ReceiveBuffer :=
  {| _data := v; _start := _start self; _looked_at := _looked_at self;
     _looked_for := _looked_for self; _delimiter := _delimiter self;
     _delimiter_regex := _delimiter_regex self |}.

Definition set_start (self : ReceiveBuffer) (v : Z) : ReceiveBuffer :=
  {| _data := _data self; _start := v; _looked_at := _looked_at self;
     _looked_for := _looked_for self; _delimiter := _delimiter self;
     _delimiter_regex := _delimiter_regex self |}.

Definition set_looked_at (self : ReceiveBuffer) (v : Z) : ReceiveBuffer :=
  {| _data := _data self; _start := _start self; _looked_at := v;
     _looked_for := _looked_for self; _delimiter := _delimiter self;
     _delimiter_regex := _delimiter_regex self |}.

Definition set_delimiter (self : ReceiveBuffer) (v : bytes) : ReceiveBuffer :=
  {| _data := _data self; _start := _start self; _looked_at := _looked_at self;
     _looked_for := _looked_for self; _delimiter := v;
     _delimiter_regex := _delimiter_regex self |}.

Definition set_delimiter_regex (self : ReceiveBuffer) (v : regex)
  : ReceiveBuffer :=
  {| _data := _data self; _start := _start self; _looked_at := _looked_at self;
     _looked_for := _looked_for self; _delimiter := _delimiter self;
     _delimiter_regex := v |}.

Definition __bytes__ (self : ReceiveBuffer) : bytes :=
  py_slice_from (_data self) (_start self).

Definition __len__ (self : ReceiveBuffer) : Z :=
  len (_data self) - _start self.

Definition __bool__ (self : ReceiveBuffer) : bool :=
  negb (__len__ self =? 0).

Definition compress (self : ReceiveBuffer) : ReceiveBuffer :=
  if len (_data self) / 2 <? _start self then
    let self1 := set_data self (py_del_prefix (_data self) (_start self)) in
    let self2 := set_looked_at self1 (_looked_at self1 - _start self1) in
    set_start self2 (_start self2 - _start self2)
  else self.

Definition __iadd__ (self : ReceiveBuffer) (byteslike : bytes)
  : ReceiveBuffer :=
  set_data self (_data self ++ byteslike).

Definition maybe_extract_at_most (self : ReceiveBuffer) (count : Z)
  : option bytes * ReceiveBuffer :=
  let out := py_slice (_data self) (_start self) (_start self + count) in
  match out with
  | [] => (None, self)
  | _ => (Some out, set_start self (_start self + len out))
  end.

(** The first part of [maybe_extract_until_delimiter]: the offset the
    search starts from (the local [looked_at]) and the buffer with the
    delimiter it now remembers; compiling a new delimiter may raise. *)
Definition prepare_search (self : ReceiveBuffer) (delimiter : bytes)
  : result Z * ReceiveBuffer :=
  if bytes_eqb delimiter (_delimiter self) then
    (Ok (Z.max (_start self) (_looked_at self - len delimiter + 1)), self)
  else
    let self1 := set_delimiter self delimiter in
    if bytes_eqb delimiter default_delimiter then
      (Ok (_start self), set_delimiter_regex self1 delimiter_regex)
    else
      match re_compile delimiter with
      | Some r => (Ok (_start self), set_delimiter_regex self1 r)
      | None => (Raise ReError, self1)
      end.

Definition maybe_extract_until_delimiter (self : ReceiveBuffer)
  (delimiter : bytes) : result (option bytes) * ReceiveBuffer :=
  match prepare_search self delimiter with
  | (Raise e, self1) => (Raise e, self1)
  | (Ok looked_at, self1) =>
      match finditer_first (_delimiter_regex self1) (_data self1) looked_at with
      | None => (Ok None, set_looked_at self1 (len (_data self1)))
      | Some (_, end_) =>
          let out := py_slice (_data self1) (_start self1) end_ in
          (Ok (Some out), set_start self1 end_)
      end
  end.

(** [lines[-k]] for [k >= 1]. *)
Definition list_from_end {A : Type} (l : list A) (k : nat) : result A :=
  match nth_error (rev l) (pred k) with
  | Some a => Ok a
  | None => Raise IndexError
  end.

(** [del lines[-2:]]. *)
Definition del_last_two {A : Type} (l : list A) : list A :=
  firstn (length l - 2) l.

(** The second test of [maybe_extract_lines]:
    [self._start < len(self._data) and self._data[self._start] == b"\n"]. *)
Definition bare_lf_test (self : ReceiveBuffer) : result bool :=
  if _start self <? len (_data self) then
    match py_getitem (_data self) (_start self) with
    | Ok v => Ok (py_eq v (PyBytes [LF]))
    | Raise e => Raise e
    end
  else Ok false.

Definition maybe_extract_lines (self : ReceiveBuffer)
  : result (option (list bytes)) * ReceiveBuffer :=
  if py_eq (PyBytes (py_slice (_data self) (_start self) (_start self + 2)))
           (PyBytes [CR; LF])
  then (Ok (Some []), set_start self (_start self + 2))
  else
    match bare_lf_test self with
    | Raise e => (Raise e, self)
    | Ok true => (Ok (Some []), set_start self (_start self + 1))
    | Ok false =>
        match maybe_extract_until_delimiter self [LF; CR; QMARK; LF] with
        | (Raise e, self1) => (Raise e, self1)
        | (Ok None, self1) => (Ok None, self1)
        | (Ok (Some data), self1) =>
            let lines := re_split line_delimiter_regex data in
            match list_from_end lines 2, list_from_end lines 1 with
            | Raise e, _ => (Raise e, self1)
            | _, Raise e => (Raise e, self1)
            | Ok a, Ok b =>
                if py_eq (PyBytes a) (PyBytes b) && py_eq (PyBytes b) (PyBytes [])
                then (Ok (Some (del_last_two lines)), self1)
                else (Raise AssertionError, self1)
            end
        end
    end.

(** The offset [maybe_extract_until_delimiter] hands to the search. *)
Definition resume_position (self : ReceiveBuffer) (delimiter : bytes) : Z :=
  if bytes_eqb delimiter (_delimiter self)
  then Z.max (_start self) (_looked_at self - len delimiter + 1)
  else _start self.

(** ** Sequences of calls *)

Inductive op : Type :=
| Append (byteslike : bytes)
| Compress
| AtMost (count : Z)
| UntilDelimiter (delimiter : bytes)
| Lines.

(** What a call hands back: nothing for [+=] and [compress], the optional
    bytes of the two byte extractions, the optional lines of
    [maybe_extract_lines]. *)
Inductive retval : Type :=
| RetUnit
| RetBytes (r : result (option bytes))
| RetLines (r : result (option (list bytes))).

Definition call (o : op) (self : ReceiveBuffer) : retval * ReceiveBuffer :=
  match o with
  | Append c => (RetUnit, __iadd__ self c)
  | Compress => (RetUnit, compress self)
  | AtMost n =>
      (RetBytes (Ok (fst (maybe_extract_at_most self n))),
       snd (maybe_extract_at_most self n))
  | UntilDelimiter d =>
      (RetBytes (fst (maybe_extract_until_delimiter self d)),
       snd (maybe_extract_until_delimiter self d))
  | Lines =>
      (RetLines (fst (maybe_extract_lines self)),
       snd (maybe_extract_lines self))
  end.

Definition is_extraction (o : op) : bool :=
  match o with
  | AtMost _ | UntilDelimiter _ | Lines => true
  | Append _ | Compress => false
  end.

(** The bytes a call moved the cursor over. *)
Definition consumed (o : op) (before after : ReceiveBuffer) : bytes :=
  if is_extraction o
  then py_slice (_data before) (_start before) (_start after)
  else [].

Record event : Type := {
  ev_op : op;
  ev_ret : retval;
  ev_consumed : bytes
}.

Fixpoint final (ops : list op) (self : ReceiveBuffer) : ReceiveBuffer :=
  match ops with
  | [] => self
  | o :: ops' => final ops' (snd (call o self))
  end.

Fixpoint run (ops : list op) (self : ReceiveBuffer) : list event :=
  match ops with
  | [] => []
  | o :: ops' =>
      {| ev_op := o;
         ev_ret := fst (call o self);
         ev_consumed := consumed o self (snd (call o self)) |}
      :: run ops' (snd (call o self))
  end.

(** The values returned by the extraction calls of a sequence, in order. *)
Fixpoint returns (ops : list op) (self : ReceiveBuffer) : list retval :=
  match ops with
  | [] => []
  | o :: ops' =>
      if is_extraction o
      then fst (call o self) :: returns ops' (snd (call o self))
      else returns ops' (snd (call o self))
  end.

(** All the bytes a sequence of calls appends. *)
Fixpoint appended (ops : list op) : bytes :=
  match ops with
  | [] => []
  | Append c :: ops' => c ++ appended ops'
  | _ :: ops' => appended ops'
  end.

Definition is_compress (o : op) : bool :=
  match o with
  | Compress => true
  | _ => false
  end.

Definition without_compress (ops : list op) : list op :=
  filter (fun o => negb (is_compress o)) ops.

(** A delimiter of the fragment; a call whose delimiter, if it has one, is
    of the fragment; and a call that moreover asks for a count of bytes
    that is not negative. *)
Definition supported (delimiter : bytes) : Prop :=
  exists r, re_compile delimiter = Some r.

Definition op_supported (o : op) : Prop :=
  match o with
  | UntilDelimiter d => supported d
  | _ => True
  end.

Definition op_ok (o : op) : Prop :=
  match o with
  | AtMost n => 0 <= n
  | UntilDelimiter d => supported d
  | _ => True
  end.

(** ** Matches, declaratively *)

(** [matches r w]: the bytes [w] are a word of the pattern [r]. *)
Inductive matches : regex -> bytes -> Prop :=
| matches_nil : matches [] []
| matches_lit c r w : matches r w -> matches (Lit c :: r) (c :: w)
| matches_opt_take c r w : matches r w -> matches (Opt c :: r) (c :: w)
| matches_opt_skip c r w : matches r w -> matches (Opt c :: r) w.

(** [r] has a match in [x] that spans the offsets [s .. e). *)
Definition occurs (r : regex) (x : bytes) (s e : Z) : Prop :=
  0 <= s <= e /\ e <= len x /\ matches r (py_slice x s e).

(** ** States the buffer can be in *)

Definition cursors_ok (self : ReceiveBuffer) : Prop :=
  0 <= _start self <= len (_data self) /\ _looked_at self <= len (_data self).

Definition wf (self : ReceiveBuffer) : Prop :=
  cursors_ok self /\
  re_compile (_delimiter self) = Some (_delimiter_regex self).

(** ** Lines and the delimiters between them *)

(** The lines with a delimiter after each, then the delimiters left. *)
Fixpoint rejoin (lines : list bytes) (delims : list bytes) : bytes :=
  match lines, delims with
  | l :: ls, d :: ds => l ++ d ++ rejoin ls ds
  | [], ds => concat ds
  | ls, [] => concat ls
  end.

Definition line_delimiter (d : bytes) : Prop :=
  d = [LF] \/ d = [CR; LF].

(** The bytes [seg] a call consumed are the ones it returned: the returned
    bytes themselves, or the returned lines with their delimiters put
    back, and nothing when nothing is returned. *)
Definition carries (rv : retval) (seg : bytes) : Prop :=
  match rv with
  | RetBytes (Ok (Some out)) => seg = out
  | RetLines (Ok (Some lines)) =>
      exists delims,
        length delims = S (length lines) /\
        Forall line_delimiter delims /\
        rejoin lines delims = seg
  | _ => seg = []
  end.

(** ** Bytes examined by the searches

    What a call examines is counted on the search it runs: the bytes from
    the offset handed to [finditer] that the search walks over. *)

Definition until_delimiter_examined (self : ReceiveBuffer) (delimiter : bytes)
  : Z :=
  match prepare_search self delimiter with
  | (Ok looked_at, self1) =>
      finditer_examined (_delimiter_regex self1) (_data self1) looked_at
  | (Raise _, _) => 0
  end.

Definition lines_examined (self : ReceiveBuffer) : Z :=
  if py_eq (PyBytes (py_slice (_data self) (_start self) (_start self + 2)))
           (PyBytes [CR; LF])
  then 0
  else
    match bare_lf_test self with
    | Ok false => until_delimiter_examined self [LF; CR; QMARK; LF]
    | _ => 0
    end.

Definition examined (o : op) (self : ReceiveBuffer) : Z :=
  match o with
  | UntilDelimiter d => until_delimiter_examined self d
  | Lines => lines_examined self
  | _ => 0
  end.

Fixpoint total_examined (ops : list op) (self : ReceiveBuffer) : Z :=
  match ops with
  | [] => 0
  | o :: ops' => examined o self + total_examined ops' (snd (call o self))
  end.

Fixpoint polls (ops : list op) : Z :=
  match ops with
  | [] => 0
  | UntilDelimiter _ :: ops' => 1 + polls ops'
  | _ :: ops' => polls ops'
  end.

(** ** Blank lines and line heads *)

(** A match of the blank-line pattern. *)
Definition blank_line (m : bytes) : Prop :=
  m = [LF; LF] \/ m = [LF; CR; LF].

(** How a sequence starts, as the splitting sees it. *)
Inductive line_head : bytes -> Prop :=
| head_nil : line_head []
| head_lf s : line_head (LF :: s)
| head_crlf s : line_head (CR :: LF :: s)
| head_other c s :
    c <> LF -> (c = CR -> forall s', s <> LF :: s') -> line_head (c :: s).

(** ** Compaction as a shift *)

(** [a] is [b] before some compactions: the storage of [a] is that of [b]
    behind [k] more consumed bytes, and the cursors of [a] are those of
    [b] moved by [k]. *)
Definition shifted (k : Z) (a b : ReceiveBuffer) : Prop :=
  exists pre,
    len pre = k /\
    _data a = pre ++ _data b /\
    _start a = _start b + k /\
    _looked_at a = _looked_at b + k /\
    _delimiter a = _delimiter b /\
    _delimiter_regex a = _delimiter_regex b.

(** ** Rescanning *)

(** What a call for [d] would examine if it found nothing. *)
Definition unscanned (d : bytes) (self : ReceiveBuffer) : Z :=
  len (_data self) - resume_position self d.

(** The sequences of the rescanning bound: appends, and calls for the
    delimiter [d]. *)
Definition append_or_poll (d : bytes) (o : op) : Prop :=
  (exists c, o = Append c) \/ o = UntilDelimiter d.

(** The event of an append, or of a call that found no match. *)
Definition nothing_found (ev : event) : Prop :=
  ev_ret ev = RetUnit \/ ev_ret ev = RetBytes (Ok None).

(** ** Sample inputs *)

Definition abc : bytes := ["a"; "b"; "c"]%byte.
Definition abcdef : bytes := ["a"; "b"; "c"; "d"; "e"; "f"]%byte.

(** [b"ab\r\n\r\n"]. *)
Definition crlf_block : bytes :=
  ["a"; "b"; "013"; "010"; "013"; "010"]%byte.

(** [b"Host: x"] and [b"Foo: y"]. *)
Definition host_line : bytes := ["H"; "o"; "s"; "t"; ":"; " "; "x"]%byte.
Definition foo_line : bytes := ["F"; "o"; "o"; ":"; " "; "y"]%byte.

(** [b"Host: x\r\nFoo: y\r\n\r\n"]. *)
Definition header_block : bytes :=
  host_line ++ [CR; LF] ++ foo_line ++ [CR; LF; CR; LF].

(** One append of [b"abc"], then [k] calls for the default pattern. *)
Definition poll_default (k : nat) : list op :=
  Append abc :: repeat (UntilDelimiter default_delimiter) k.

(** ** Answers of the delimiter search *)

(** [res] is the answer about the first occurrence of [r] in the
    unconsumed region of [self]: the bytes up to the end of the leftmost
    occurrence that starts at or after [start], or [None] when there is no
    occurrence from [start] on. *)
Definition first_occurrence (r : regex) (self : ReceiveBuffer)
  (res : result (option bytes)) : Prop :=
  match res with
  | Ok (Some out) =>
      exists s e,
        _start self <= s /\ occurs r (_data self) s e /\
        (forall s' e', _start self <= s' < s -> ~ occurs r (_data self) s' e') /\
        out = py_slice (_data self) (_start self) e
  | Ok None =>
      forall s e, _start self <= s -> ~ occurs r (_data self) s e
  | Raise _ => False
  end.

(** A call that searches, if it searches, for the delimiter [d] only
    ([maybe_extract_lines] searches for the default one). *)
Definition uses_only (d : bytes) (o : op) : Prop :=
  match o with
  | UntilDelimiter d' => d' = d
  | Lines => d = default_delimiter
  | _ => True
  end.

(** The search cursor is sound for [d]: every occurrence in the unconsumed
    region starts at or after the offset a search for [d] would resume
    from. *)
Definition scanned (d : bytes) (r : regex) (self : ReceiveBuffer) : Prop :=
  forall s e,
    _start self <= s -> occurs r (_data self) s e ->
    _looked_at self - len d + 1 <= s.

(** A source that starts with a quantifier, [*], [+] or [?]: [re.compile]
    raises on it (nothing to repeat). *)
Definition nothing_to_repeat (d : bytes) : Prop :=
  exists c rest, d = c :: rest /\ (c = x2a \/ c = x2b \/ c = x3f).

(** [b"x;y;zzzzzz"], and the delimiters [b"Q"] and [b";"]. *)
Definition semicolons : bytes :=
  ["x"; ";"; "y"; ";"; "z"; "z"; "z"; "z"; "z"; "z"]%byte.
Definition delim_q : bytes := ["Q"]%byte.
Definition delim_semi : bytes := [";"]%byte.

(** * Properties *)

(** ** Byte sequences and slices *)

Lemma len_nonneg (x : bytes) : 0 <= len x.
Proof. unfold len. lia. Qed.

Lemma len_app (x y : bytes) : len (x ++ y) = len x + len y.
Proof. unfold len. rewrite length_app. lia. Qed.

Lemma bytes_eqb_eq (a b : bytes) : bytes_eqb a b = true <-> a = b.
Proof.
  revert b. induction a as [|x a IH]; intros [|y b]; simpl;
    try (split; [discriminate | discriminate]); try tauto.
  rewrite andb_true_iff, IH. split.
  - intros [Hxy ->]. apply Byte.byte_dec_bl in Hxy. now subst.
  - intros [= -> ->]. split; [now apply Byte.byte_dec_lb | reflexivity].
Qed.

Lemma bytes_eqb_refl (a : bytes) : bytes_eqb a a = true.
Proof. now apply bytes_eqb_eq. Qed.

Lemma slice_bound_inside (n i : Z) : 0 <= i <= n -> slice_bound n i = i.
Proof.
  intros H. unfold slice_bound.
  destruct (i <? 0) eqn:E; [apply Z.ltb_lt in E; lia | lia].
Qed.

Lemma slice_bound_above (n i : Z) : 0 <= n <= i -> slice_bound n i = n.
Proof.
  intros H. unfold slice_bound.
  destruct (i <? 0) eqn:E; [apply Z.ltb_lt in E; lia | lia].
Qed.

Lemma slice_bound_range (n i : Z) : 0 <= n -> 0 <= slice_bound n i <= n.
Proof.
  intros H. unfold slice_bound.
  destruct (i <? 0) eqn:E; [apply Z.ltb_lt in E; lia | lia].
Qed.

Lemma py_slice_inside (x : bytes) (lo hi : Z) :
  0 <= lo -> lo <= hi -> hi <= len x ->
  py_slice x lo hi = firstn (Z.to_nat (hi - lo)) (skipn (Z.to_nat lo) x).
Proof.
  intros H1 H2 H3. unfold py_slice.
  rewrite !slice_bound_inside by lia. reflexivity.
Qed.

Lemma py_slice_len (x : bytes) (lo hi : Z) :
  0 <= lo -> lo <= hi -> hi <= len x -> len (py_slice x lo hi) = hi - lo.
Proof.
  intros H1 H2 H3. rewrite py_slice_inside by lia.
  unfold len in *. rewrite length_firstn, length_skipn. lia.
Qed.

Lemma py_slice_empty (x : bytes) (lo : Z) : py_slice x lo lo = [].
Proof. unfold py_slice. now rewrite Z.sub_diag. Qed.

Lemma py_slice_from_inside (x : bytes) (lo : Z) :
  0 <= lo <= len x -> py_slice_from x lo = skipn (Z.to_nat lo) x.
Proof.
  intros H. unfold py_slice_from. now rewrite slice_bound_inside.
Qed.

Lemma py_slice_from_len (x : bytes) (lo : Z) :
  0 <= lo <= len x -> len (py_slice_from x lo) = len x - lo.
Proof.
  intros H. rewrite py_slice_from_inside by lia.
  unfold len in *. rewrite length_skipn. lia.
Qed.

(** A slice that stops at or after the end of the sequence. *)
Lemma py_slice_to_end (x : bytes) (lo hi : Z) :
  0 <= lo <= len x -> len x <= hi -> py_slice x lo hi = py_slice_from x lo.
Proof.
  intros H1 H2. unfold py_slice, py_slice_from.
  rewrite (slice_bound_inside (len x) lo) by lia.
  rewrite (slice_bound_above (len x) hi) by lia.
  apply firstn_all2. unfold len in *. rewrite length_skipn. lia.
Qed.

Lemma skipn_add {A : Type} (a b : nat) (l : list A) :
  skipn (a + b) l = skipn b (skipn a l).
Proof.
  revert l. induction a as [|a IH]; intros l; simpl.
  - reflexivity.
  - destruct l; [now rewrite skipn_nil | apply IH].
Qed.

(** A slice followed by the rest of the sequence. *)
Lemma py_slice_then_rest (x : bytes) (lo hi : Z) :
  0 <= lo -> lo <= hi -> hi <= len x ->
  py_slice x lo hi ++ py_slice_from x hi = py_slice_from x lo.
Proof.
  intros H1 H2 H3. rewrite py_slice_inside by lia.
  rewrite !py_slice_from_inside by lia.
  replace (Z.to_nat hi) with (Z.to_nat lo + Z.to_nat (hi - lo))%nat by lia.
  rewrite skipn_add. apply firstn_skipn.
Qed.

(** Two slices that meet. *)
Lemma py_slice_join (x : bytes) (a b c : Z) :
  0 <= a -> a <= b -> b <= c -> c <= len x ->
  py_slice x a b ++ py_slice x b c = py_slice x a c.
Proof.
  intros H1 H2 H3 H4. rewrite !py_slice_inside by lia.
  replace (Z.to_nat b) with (Z.to_nat a + Z.to_nat (b - a))%nat by lia.
  rewrite skipn_add.
  replace (Z.to_nat (c - a)) with (Z.to_nat (b - a) + Z.to_nat (c - b))%nat
    by lia.
  set (y := skipn (Z.to_nat a) x).
  rewrite <- (firstn_skipn (Z.to_nat (b - a)) y) at 3.
  assert (Hy : (Z.to_nat (b - a) <= length y)%nat).
  { unfold y, len in *. rewrite length_skipn. lia. }
  rewrite firstn_app.
  rewrite firstn_firstn, length_firstn.
  replace (Nat.min (Z.to_nat (b - a) + Z.to_nat (c - b)) (Z.to_nat (b - a)))
    with (Z.to_nat (b - a)) by lia.
  replace (Z.to_nat (b - a) + Z.to_nat (c - b) -
           Nat.min (Z.to_nat (b - a)) (length y))%nat
    with (Z.to_nat (c - b)) by lia.
  reflexivity.
Qed.

(** Slices of a sequence behind a prefix of [k] bytes. *)
Lemma py_slice_shift (pre x : bytes) (lo hi : Z) :
  0 <= lo -> 0 <= hi ->
  py_slice (pre ++ x) (lo + len pre) (hi + len pre) = py_slice x lo hi.
Proof.
  intros H1 H2. unfold py_slice. rewrite len_app.
  pose proof (len_nonneg pre) as Hp. pose proof (len_nonneg x) as Hx.
  assert (Hb : forall i, 0 <= i ->
            slice_bound (len pre + len x) (i + len pre) =
            slice_bound (len x) i + len pre).
  { intros i Hi. unfold slice_bound.
    destruct (i + len pre <? 0) eqn:E1; [apply Z.ltb_lt in E1; lia|].
    destruct (i <? 0) eqn:E2; [apply Z.ltb_lt in E2; lia|]. lia. }
  rewrite !Hb by lia.
  pose proof (slice_bound_range (len x) lo Hx) as Hl.
  replace (slice_bound (len x) hi + len pre - (slice_bound (len x) lo + len pre))
    with (slice_bound (len x) hi - slice_bound (len x) lo) by lia.
  f_equal.
  replace (Z.to_nat (slice_bound (len x) lo + len pre))
    with (length pre + Z.to_nat (slice_bound (len x) lo))%nat
    by (unfold len in *; lia).
  rewrite skipn_add. rewrite skipn_app, skipn_all, Nat.sub_diag. reflexivity.
Qed.

(** ** The matcher against the declarative matches *)

Lemma default_delimiter_compiled :
  re_compile default_delimiter = Some delimiter_regex.
Proof. reflexivity. Qed.

Lemma re_compile_length (src : bytes) (r : regex) :
  re_compile src = Some r -> (length r <= length src)%nat.
Proof.
  remember (length src) as m eqn:Hm. revert src r Hm.
  induction m as [m IH] using lt_wf_ind. intros src r Hm.
  destruct src as [|c rest]; simpl.
  - intros [= <-]. simpl. lia.
  - destruct (is_special c); [discriminate|]. simpl in Hm.
    assert (Hlit : option_map (cons (Lit c)) (re_compile rest) = Some r ->
                   (length r <= m)%nat).
    { destruct (re_compile rest) as [r'|] eqn:E; [|discriminate].
      intros [= <-]. apply (IH (length rest)) in E; simpl; lia. }
    destruct rest as [|q rest']; [exact Hlit|].
    assert (Hopt : option_map (cons (Opt c)) (re_compile rest') = Some r ->
                   (length r <= m)%nat).
    { destruct (re_compile rest') as [r'|] eqn:E; [|discriminate].
      intros [= <-]. apply (IH (length rest')) in E; simpl in *; lia. }
    destruct q; first [exact Hopt | exact Hlit].
Qed.

Lemma matches_length (r : regex) (w : bytes) :
  matches r w -> (length w <= length r)%nat.
Proof. induction 1; simpl; lia. Qed.

Lemma match_here_sound (r : regex) :
  forall s n, match_here r s = Some n ->
    (n <= length s)%nat /\ matches r (firstn n s).
Proof.
  induction r as [|a r IH]; intros s n; simpl.
  - intros [= <-]. split; [lia | constructor].
  - destruct a as [c|c].
    + destruct s as [|x s']; [discriminate|].
      destruct (Byte.eqb x c) eqn:E; [|discriminate].
      apply Byte.byte_dec_bl in E. subst x.
      destruct (match_here r s') as [m|] eqn:Em; [|discriminate].
      intros [= <-]. apply IH in Em as [Hm1 Hm2]. simpl.
      split; [lia | now constructor].
    + assert (Hskip : match_here r s = Some n ->
                (n <= length s)%nat /\ matches (Opt c :: r) (firstn n s)).
      { intros H. apply IH in H as [H1 H2]. split; [exact H1|].
        now apply matches_opt_skip. }
      destruct s as [|x s']; [exact Hskip|].
      destruct (Byte.eqb x c) eqn:E; [|exact Hskip].
      apply Byte.byte_dec_bl in E. subst x.
      destruct (match_here r s') as [m|] eqn:Em; [|exact Hskip].
      intros [= <-]. apply IH in Em as [Hm1 Hm2]. simpl.
      split; [lia | now apply matches_opt_take].
Qed.

Lemma match_here_complete (r : regex) (w : bytes) :
  matches r w -> forall t, match_here r (w ++ t) <> None.
Proof.
  induction 1 as [|c r w Hm IH|c r w Hm IH|c r w Hm IH]; intros t; simpl.
  - discriminate.
  - rewrite (Byte.byte_dec_lb (eq_refl c)).
    specialize (IH t). destruct (match_here r (w ++ t)); [discriminate|].
    contradiction.
  - rewrite (Byte.byte_dec_lb (eq_refl c)).
    specialize (IH t). destruct (match_here r (w ++ t)); [discriminate|].
    contradiction.
  - specialize (IH t).
    destruct (w ++ t) as [|x s'] eqn:E; [exact IH|].
    destruct (Byte.eqb x c); [|exact IH].
    destruct (match_here r s'); [discriminate | exact IH].
Qed.

(** No match at the head of [s]: no prefix of [s] is a word of [r]. *)
Lemma match_here_none (r : regex) (s : bytes) (n : nat) :
  match_here r s = None -> ~ matches r (firstn n s).
Proof.
  intros H Hm. apply (match_here_complete _ _ Hm (skipn n s)).
  now rewrite firstn_skipn.
Qed.

(** ** The search *)

Lemma search_from_spec (r : regex) :
  forall s off,
    match search_from r s off with
    | Some (a, b) =>
        exists k n,
          (k <= length s)%nat /\ a = off + Z.of_nat k /\ b = a + Z.of_nat n /\
          match_here r (skipn k s) = Some n /\
          forall j, (j < k)%nat -> match_here r (skipn j s) = None
    | None =>
        forall j, (j <= length s)%nat -> match_here r (skipn j s) = None
    end.
Proof.
  induction s as [|x s IH]; intros off; simpl.
  - destruct (match_here r []) as [n|] eqn:E.
    + exists O, n. simpl. repeat split; try lia. exact E.
    + intros j Hj. now rewrite skipn_nil.
  - destruct (match_here r (x :: s)) as [n|] eqn:E.
    + exists O, n. simpl. repeat split; try lia. exact E.
    + specialize (IH (off + 1)).
      destruct (search_from r s (off + 1)) as [[a b]|].
      * destruct IH as (k & n & Hk & Ha & Hb & Hm & Hnone).
        exists (S k), n. simpl. repeat split; try lia; try assumption.
        intros [|j] Hj; simpl; [exact E | apply Hnone; lia].
      * intros [|j] Hj; simpl; [exact E | apply IH; simpl in Hj; lia].
Qed.

Lemma search_steps_none (r : regex) :
  forall s off, search_from r s off = None ->
    search_steps r s = length s.
Proof.
  induction s as [|x s IH]; intros off; simpl.
  - destruct (match_here r []); [discriminate | reflexivity].
  - destruct (match_here r (x :: s)); [discriminate|].
    intros H. f_equal. now apply (IH (off + 1)).
Qed.

Lemma search_pos_range (x : bytes) (pos : Z) :
  0 <= search_pos x pos <= len x.
Proof. unfold search_pos. pose proof (len_nonneg x). lia. Qed.

Lemma search_pos_inside (x : bytes) (pos : Z) :
  0 <= pos <= len x -> search_pos x pos = pos.
Proof. unfold search_pos. lia. Qed.

(** The first match from [pos]: the match the search answers is an
    occurrence of the pattern that starts at or after the position the
    search starts from, and no occurrence starts before it from there on;
    when the search answers nothing there is no occurrence from there on. *)
Lemma finditer_first_spec (r : regex) (x : bytes) (pos : Z) :
  match finditer_first r x pos with
  | Some (s, e) =>
      search_pos x pos <= s /\ occurs r x s e /\
      forall s' e', search_pos x pos <= s' < s -> ~ occurs r x s' e'
  | None =>
      forall s' e', search_pos x pos <= s' -> ~ occurs r x s' e'
  end.
Proof.
  unfold finditer_first.
  pose proof (search_pos_range x pos) as Hp.
  set (p := search_pos x pos) in *.
  pose proof (search_from_spec r (skipn (Z.to_nat p) x) p) as H.
  assert (Hlen : length (skipn (Z.to_nat p) x) = (length x - Z.to_nat p)%nat)
    by apply length_skipn.
  assert (Hocc : forall s' e', p <= s' -> occurs r x s' e' ->
            match_here r (skipn (Z.to_nat s' - Z.to_nat p)
                            (skipn (Z.to_nat p) x)) <> None).
  { intros s' e' Hs' (H1 & H2 & H3).
    rewrite <- skipn_add.
    replace (Z.to_nat p + (Z.to_nat s' - Z.to_nat p))%nat
      with (Z.to_nat s') by lia.
    rewrite py_slice_inside in H3 by lia.
    intros Hnone. exact (match_here_none _ _ _ Hnone H3). }
  destruct (search_from r (skipn (Z.to_nat p) x) p) as [[a b]|].
  - destruct H as (k & n & Hk & -> & -> & Hm & Hnone).
    apply match_here_sound in Hm as Hm'. destruct Hm' as [Hn Hw].
    rewrite <- skipn_add in Hn, Hw. rewrite length_skipn in Hn.
    rewrite Hlen in Hk. unfold len in *.
    split; [lia|]. split.
    + split; [lia|]. split; [unfold len; lia|].
      rewrite py_slice_inside by (unfold len; lia).
      replace (Z.to_nat (p + Z.of_nat k + Z.of_nat n - (p + Z.of_nat k)))
        with n by lia.
      replace (Z.to_nat (p + Z.of_nat k)) with (Z.to_nat p + k)%nat by lia.
      exact Hw.
    + intros s' e' Hs' Ho. apply (Hocc s' e'); [lia | exact Ho |].
      apply Hnone. lia.
  - intros s' e' Hs' Ho. apply (Hocc s' e'); [lia | exact Ho |].
    apply H. destruct Ho as (H1 & H2 & H3). rewrite Hlen. unfold len in *. lia.
Qed.

Lemma search_from_offset (r : regex) :
  forall s off k,
    search_from r s (off + k) =
    option_map (fun se => (fst se + k, snd se + k)) (search_from r s off).
Proof.
  induction s as [|x s IH]; intros off k; simpl.
  - destruct (match_here r []); simpl; [f_equal; f_equal; lia | reflexivity].
  - destruct (match_here r (x :: s)); simpl; [f_equal; f_equal; lia|].
    replace (off + k + 1) with (off + 1 + k) by lia. apply IH.
Qed.

(** Searching behind a prefix that lies before the starting position. *)
Lemma finditer_first_shift (r : regex) (pre x : bytes) (pos : Z) :
  0 <= pos ->
  finditer_first r (pre ++ x) (pos + len pre) =
  option_map (fun se => (fst se + len pre, snd se + len pre))
             (finditer_first r x pos).
Proof.
  intros Hpos. unfold finditer_first.
  pose proof (len_nonneg pre) as Hp. pose proof (len_nonneg x) as Hx.
  assert (Hs : search_pos (pre ++ x) (pos + len pre) =
               search_pos x pos + len pre).
  { unfold search_pos. rewrite len_app. lia. }
  rewrite Hs. pose proof (search_pos_range x pos) as Hr.
  replace (Z.to_nat (search_pos x pos + len pre))
    with (length pre + Z.to_nat (search_pos x pos))%nat
    by (unfold len in *; lia).
  rewrite skipn_add, skipn_app, skipn_all, Nat.sub_diag. simpl skipn at 2.
  simpl app. apply search_from_offset.
Qed.

Lemma finditer_examined_none (r : regex) (x : bytes) (pos : Z) :
  finditer_first r x pos = None ->
  finditer_examined r x pos = len x - search_pos x pos.
Proof.
  unfold finditer_first, finditer_examined. intros H.
  rewrite (search_steps_none _ _ _ H), length_skipn.
  pose proof (search_pos_range x pos). unfold len in *. lia.
Qed.

(** A slice that lies inside the first of two joined sequences. *)
Lemma py_slice_app_l (x y : bytes) (s e : Z) :
  0 <= s -> s <= e -> e <= len x -> py_slice (x ++ y) s e = py_slice x s e.
Proof.
  intros H1 H2 H3. pose proof (len_nonneg y) as Hy.
  rewrite !py_slice_inside by (rewrite ?len_app; lia).
  rewrite skipn_app, firstn_app, length_skipn.
  replace (Z.to_nat (e - s) - (length x - Z.to_nat s))%nat with O
    by (unfold len in *; lia).
  simpl. apply app_nil_r.
Qed.

(** Why the search may resume [len d - 1] bytes before the end of what it
    has scanned: once a scan of [x] from [p] has found nothing, an
    occurrence in [x] with more bytes appended, from [p] on, reaches past
    the end of [x], and it is no longer than the delimiter is written, so
    it starts after offset [len x - len d]. *)
Lemma resume_misses_nothing (d : bytes) (r : regex) (x y : bytes) (p s e : Z) :
  re_compile d = Some r ->
  (forall s' e', p <= s' -> ~ occurs r x s' e') ->
  p <= s -> occurs r (x ++ y) s e ->
  len x - len d + 1 <= s.
Proof.
  intros Hd Hnone Hp (H1 & H2 & H3).
  destruct (Z.le_gt_cases e (len x)) as [He|He].
  - exfalso. apply (Hnone s e Hp). repeat split; try lia.
    now rewrite <- (py_slice_app_l x y) by lia.
  - apply matches_length in H3. apply re_compile_length in Hd.
    assert (Hl : len (py_slice (x ++ y) s e) = e - s)
      by (apply py_slice_len; lia).
    unfold len in *. lia.
Qed.

(** ** The operations, one at a time *)

(** The cursors of a buffer built by concrete calls. *)
Ltac concrete_state := repeat split; simpl; unfold len; simpl; lia.

Lemma init_wf : wf __init__.
Proof. concrete_state. Qed.

Lemma py_slice_len_le (x : bytes) (lo hi : Z) :
  0 <= lo <= len x -> len (py_slice x lo hi) <= len x - lo.
Proof.
  intros H. unfold py_slice. rewrite (slice_bound_inside (len x) lo) by lia.
  unfold len in *. rewrite length_firstn, length_skipn. lia.
Qed.

(** A slice that starts inside the sequence is the slice of its length. *)
Lemma py_slice_as_len (x : bytes) (lo hi : Z) :
  0 <= lo <= len x ->
  py_slice x lo hi = py_slice x lo (lo + len (py_slice x lo hi)).
Proof.
  intros H. pose proof (py_slice_len_le x lo hi H) as Hle.
  pose proof (len_nonneg (py_slice x lo hi)) as Hn.
  rewrite (py_slice_inside x lo (lo + len (py_slice x lo hi))) by lia.
  assert (Hout : py_slice x lo hi =
                 firstn (Z.to_nat (slice_bound (len x) hi - lo))
                        (skipn (Z.to_nat lo) x)).
  { unfold py_slice. now rewrite (slice_bound_inside (len x) lo) by lia. }
  rewrite Hout.
  set (y := skipn (Z.to_nat lo) x).
  set (n := Z.to_nat (slice_bound (len x) hi - lo)).
  unfold len. rewrite length_firstn.
  replace (Z.to_nat (lo + Z.of_nat (Nat.min n (length y)) - lo))
    with (Nat.min n (length y)) by lia.
  destruct (Nat.le_ge_cases n (length y)) as [Hc|Hc].
  - now rewrite Nat.min_l.
  - rewrite Nat.min_r by exact Hc. now rewrite !firstn_all2 by lia.
Qed.

Lemma iadd_wf (self : ReceiveBuffer) (c : bytes) :
  wf self -> wf (__iadd__ self c).
Proof.
  intros [[Hs Hl] Hr]. unfold wf, cursors_ok. simpl. rewrite len_app.
  pose proof (len_nonneg c). repeat split; try lia. exact Hr.
Qed.

Lemma compress_fields (self : ReceiveBuffer) :
  compress self =
  if len (_data self) / 2 <? _start self then
    {| _data := py_del_prefix (_data self) (_start self);
       _start := 0;
       _looked_at := _looked_at self - _start self;
       _looked_for := _looked_for self;
       _delimiter := _delimiter self;
       _delimiter_regex := _delimiter_regex self |}
  else self.
Proof.
  unfold compress. destruct (len (_data self) / 2 <? _start self); [|reflexivity].
  unfold set_start, set_looked_at, set_data. simpl. now rewrite Z.sub_diag.
Qed.

Lemma py_del_prefix_len (x : bytes) (hi : Z) :
  0 <= hi <= len x -> len (py_del_prefix x hi) = len x - hi.
Proof. apply py_slice_from_len. Qed.

Lemma compress_wf (self : ReceiveBuffer) : wf self -> wf (compress self).
Proof.
  intros [[Hs Hl] Hr]. rewrite compress_fields.
  destruct (len (_data self) / 2 <? _start self); [|now repeat split].
  unfold wf, cursors_ok. simpl. rewrite py_del_prefix_len by lia.
  repeat split; try lia. exact Hr.
Qed.

Lemma at_most_wf (self : ReceiveBuffer) (count : Z) :
  wf self -> wf (snd (maybe_extract_at_most self count)).
Proof.
  intros [[Hs Hl] Hr]. unfold maybe_extract_at_most.
  pose proof (py_slice_len_le (_data self) (_start self)
                (_start self + count) Hs) as Hle.
  pose proof (len_nonneg (py_slice (_data self) (_start self)
                            (_start self + count))) as Hn.
  destruct (py_slice (_data self) (_start self) (_start self + count))
    eqn:E; simpl.
  - now repeat split.
  - unfold wf, cursors_ok. simpl. repeat split; try lia. exact Hr.
Qed.

Lemma resume_position_ge_start (self : ReceiveBuffer) (d : bytes) :
  _start self <= resume_position self d.
Proof. unfold resume_position. destruct (bytes_eqb d (_delimiter self)); lia. Qed.

Lemma resume_position_search_pos (self : ReceiveBuffer) (d : bytes) :
  cursors_ok self ->
  _start self <= search_pos (_data self) (resume_position self d).
Proof.
  intros [Hs Hl]. pose proof (resume_position_ge_start self d).
  unfold search_pos. lia.
Qed.

(** A delimiter that is not empty keeps the search inside the sequence. *)
Lemma resume_position_inside (self : ReceiveBuffer) (d : bytes) :
  cursors_ok self -> d <> [] ->
  search_pos (_data self) (resume_position self d) = resume_position self d.
Proof.
  intros [Hs Hl] Hd. apply search_pos_inside. unfold resume_position.
  assert (1 <= len d) by (destruct d; [contradiction | unfold len; simpl; lia]).
  destruct (bytes_eqb d (_delimiter self)); lia.
Qed.

(** The first part of the call on a buffer in a state it can be in: the
    offset handed to the search, and the buffer once it remembers the
    delimiter [d], compiled to [r]. *)
Lemma prepare_search_unfold (self : ReceiveBuffer) (d : bytes) (r : regex) :
  wf self -> re_compile d = Some r ->
  prepare_search self d =
  (Ok (resume_position self d), set_delimiter_regex (set_delimiter self d) r).
Proof.
  intros [Hc Hr] Hd. unfold prepare_search, resume_position.
  destruct (bytes_eqb d (_delimiter self)) eqn:E.
  - apply bytes_eqb_eq in E. subst d. rewrite Hr in Hd. injection Hd as <-.
    now destruct self.
  - destruct (bytes_eqb d default_delimiter) eqn:E2.
    + apply bytes_eqb_eq in E2. subst d.
      rewrite default_delimiter_compiled in Hd. now injection Hd as <-.
    + now rewrite Hd.
Qed.

Lemma until_delimiter_unfold (self : ReceiveBuffer) (d : bytes) (r : regex) :
  wf self -> re_compile d = Some r ->
  maybe_extract_until_delimiter self d =
  let self1 := set_delimiter_regex (set_delimiter self d) r in
  match finditer_first r (_data self) (resume_position self d) with
  | None => (Ok None, set_looked_at self1 (len (_data self)))
  | Some (_, e) =>
      (Ok (Some (py_slice (_data self) (_start self) e)), set_start self1 e)
  end.
Proof.
  intros Hwf Hd. unfold maybe_extract_until_delimiter.
  now rewrite (prepare_search_unfold self d r Hwf Hd).
Qed.

Lemma until_delimiter_wf (self : ReceiveBuffer) (d : bytes) :
  wf self -> supported d -> wf (snd (maybe_extract_until_delimiter self d)).
Proof.
  intros Hwf [r Hd]. rewrite (until_delimiter_unfold self d r Hwf Hd).
  destruct Hwf as [Hc Hr]. pose proof Hc as [Hs Hl].
  pose proof (finditer_first_spec r (_data self) (resume_position self d)) as H.
  pose proof (resume_position_search_pos self d Hc) as Hp.
  cbv zeta.
  destruct (finditer_first r (_data self) (resume_position self d))
    as [[s e]|]; simpl.
  - destruct H as (H1 & (H2 & H3 & _) & _).
    unfold wf, cursors_ok. simpl. repeat split; try lia. exact Hd.
  - unfold wf, cursors_ok. simpl. repeat split; try lia. exact Hd.
Qed.

(** ** Splitting a block into lines *)

Lemma line_match_other (c : byte) (s : bytes) :
  c <> LF -> (c = CR -> forall s', s <> LF :: s') ->
  match_here line_delimiter_regex (c :: s) = None.
Proof.
  intros Hlf Hcr. unfold line_delimiter_regex. simpl.
  assert (Hc : Byte.eqb c LF = false).
  { destruct (Byte.eqb c LF) eqn:E; [|reflexivity].
    apply Byte.byte_dec_bl in E. contradiction. }
  destruct (Byte.eqb c CR) eqn:E.
  - apply Byte.byte_dec_bl in E. specialize (Hcr E).
    destruct s as [|y s'].
    + now rewrite Hc.
    + destruct (Byte.eqb y LF) eqn:Ey.
      * apply Byte.byte_dec_bl in Ey. subst y. now elim (Hcr s').
      * simpl. now rewrite Hc.
  - now rewrite Hc.
Qed.

Lemma line_head_total (s : bytes) : line_head s.
Proof.
  destruct s as [|c s]; [constructor|].
  destruct (Byte.byte_eq_dec c LF) as [->|Hlf]; [constructor|].
  destruct (Byte.byte_eq_dec c CR) as [->|Hcr].
  - destruct s as [|y s]; [constructor; [exact Hlf | discriminate]|].
    destruct (Byte.byte_eq_dec y LF) as [->|Hy]; [constructor|].
    constructor; [exact Hlf|]. intros _ s' [= E _]. contradiction.
  - constructor; [exact Hlf|]. intros E. contradiction.
Qed.

Lemma split_go_nil (cur : bytes) :
  split_go line_delimiter_regex [] O cur = [cur].
Proof. reflexivity. Qed.

Lemma split_go_lf (s cur : bytes) :
  split_go line_delimiter_regex (LF :: s) O cur =
  cur :: split_go line_delimiter_regex s O [].
Proof. reflexivity. Qed.

Lemma split_go_crlf (s cur : bytes) :
  split_go line_delimiter_regex (CR :: LF :: s) O cur =
  cur :: split_go line_delimiter_regex s O [].
Proof. reflexivity. Qed.

Lemma split_go_other (c : byte) (s cur : bytes) :
  c <> LF -> (c = CR -> forall s', s <> LF :: s') ->
  split_go line_delimiter_regex (c :: s) O cur =
  split_go line_delimiter_regex s O (cur ++ [c]).
Proof.
  intros H1 H2. cbn [split_go]. now rewrite line_match_other.
Qed.

(** The words of the blank-line pattern. *)
Lemma matches_default (w : bytes) :
  matches delimiter_regex w -> w = [LF; LF] \/ w = [LF; CR; LF].
Proof.
  unfold delimiter_regex. intros H.
  inversion H as [|? ? w1 H1| |]; subst.
  inversion H1 as [| |? ? w2 H2|? ? w2 H2]; subst.
  - inversion H2 as [|? ? w3 H3| |]; subst. inversion H3; subst. now right.
  - inversion H2 as [|? ? w3 H3| |]; subst. inversion H3; subst. now left.
Qed.

(** A block that ends with a blank line splits into lines followed by two
    empty pieces. *)
Lemma split_go_blank_tail (n : nat) :
  forall u m cur, (length u <= n)%nat -> blank_line m ->
    exists pre,
      split_go line_delimiter_regex (u ++ m) O cur = pre ++ [[]; []].
Proof.
  induction n as [n IH] using lt_wf_ind. intros u m cur Hn Hm.
  destruct (line_head_total u) as [|u'|u'|c u' Hlf Hcr].
  - exists [cur]. destruct Hm as [-> | ->]; reflexivity.
  - simpl app. rewrite split_go_lf.
    destruct (IH (length u')) with (u := u') (m := m) (cur := @nil byte)
      as [pre Hpre]; [simpl in Hn; lia | lia | exact Hm |].
    exists (cur :: pre). now rewrite Hpre.
  - simpl app. rewrite split_go_crlf.
    destruct (IH (length u')) with (u := u') (m := m) (cur := @nil byte)
      as [pre Hpre]; [simpl in Hn; lia | lia | exact Hm |].
    exists (cur :: pre). now rewrite Hpre.
  - destruct u' as [|y u''].
    + destruct (Byte.byte_eq_dec c CR) as [->|Hc].
      * exists [cur]. destruct Hm as [-> | ->]; reflexivity.
      * simpl app. rewrite split_go_other;
          [| exact Hlf | intros E; contradiction].
        exists [cur ++ [c]]. destruct Hm as [-> | ->]; reflexivity.
    + simpl app. rewrite split_go_other; [| exact Hlf |].
      * destruct (IH (length (y :: u''))) with (u := y :: u'') (m := m)
          (cur := cur ++ [c]) as [pre Hpre];
          [simpl in *; lia | lia | exact Hm |].
        exists pre. exact Hpre.
      * intros E s' [= -> _]. now apply (Hcr E u'').
Qed.

(** The pieces of a split, with the delimiters between them, give the
    sequence back. *)
Lemma split_go_rejoin (n : nat) :
  forall s cur, (length s <= n)%nat ->
    exists delims,
      S (length delims) = length (split_go line_delimiter_regex s O cur) /\
      Forall line_delimiter delims /\
      rejoin (split_go line_delimiter_regex s O cur) delims = cur ++ s.
Proof.
  induction n as [n IH] using lt_wf_ind. intros s cur Hn.
  destruct (line_head_total s) as [|s'|s'|c s' Hlf Hcr].
  - exists []. rewrite split_go_nil. simpl. now repeat split.
  - rewrite split_go_lf.
    destruct (IH (length s')) with (s := s') (cur := @nil byte)
      as (ds & H1 & H2 & H3); [simpl in Hn; lia | lia |].
    exists ([LF] :: ds). split; [simpl; now rewrite H1|].
    split; [constructor; [now left | exact H2]|].
    cbn [rejoin]. rewrite H3. reflexivity.
  - rewrite split_go_crlf.
    destruct (IH (length s')) with (s := s') (cur := @nil byte)
      as (ds & H1 & H2 & H3); [simpl in Hn; lia | lia |].
    exists ([CR; LF] :: ds). split; [simpl; now rewrite H1|].
    split; [constructor; [now right | exact H2]|].
    cbn [rejoin]. rewrite H3. reflexivity.
  - rewrite split_go_other by assumption.
    destruct (IH (length s')) with (s := s') (cur := cur ++ [c])
      as (ds & H1 & H2 & H3); [simpl in Hn; lia | lia |].
    exists ds. split; [exact H1|]. split; [exact H2|].
    rewrite H3, <- app_assoc. reflexivity.
Qed.

Lemma rejoin_drop_empties (pre : list bytes) :
  forall delims, length delims = S (length pre) ->
    rejoin (pre ++ [[]; []]) delims = rejoin pre delims.
Proof.
  induction pre as [|l pre IH]; intros [|d ds] H; try discriminate.
  - destruct ds; [|discriminate]. simpl. reflexivity.
  - simpl in H. injection H as H. simpl. now rewrite IH.
Qed.

Lemma del_last_two_app {A : Type} (pre : list A) (a b : A) :
  del_last_two (pre ++ [a; b]) = pre.
Proof.
  unfold del_last_two. rewrite length_app. simpl.
  replace (length pre + 2 - 2)%nat with (length pre + 0)%nat by lia.
  rewrite firstn_app_2. simpl. apply app_nil_r.
Qed.

(** ** [maybe_extract_lines] *)

(** Indexing gives an integer, and an integer is not equal to [b"\n"]:
    the test for a bare line feed answers [False] on every buffer. *)
Lemma bare_lf_test_false (self : ReceiveBuffer) :
  0 <= _start self -> bare_lf_test self = Ok false.
Proof.
  unfold bare_lf_test. generalize (_data self) (_start self). intros x i Hi.
  destruct (i <? len x) eqn:E; [|reflexivity].
  apply Z.ltb_lt in E. unfold py_getitem.
  replace (i <? 0) with false by (symmetry; apply Z.ltb_ge; lia).
  replace ((i <? 0) || (len x <=? i)) with false.
  2:{ symmetry. apply orb_false_iff. split;
      [apply Z.ltb_ge | apply Z.leb_gt]; lia. }
  destruct (nth_error x (Z.to_nat i)) as [b|] eqn:En; [reflexivity|].
  apply nth_error_None in En. unfold len in E. lia.
Qed.

(** The block cut at the first blank line splits into lines followed by
    two empty pieces. *)
Lemma blank_block_split (x : bytes) (start pos s e : Z) :
  0 <= start <= search_pos x pos ->
  finditer_first delimiter_regex x pos = Some (s, e) ->
  exists pre,
    re_split line_delimiter_regex (py_slice x start e) = pre ++ [[]; []].
Proof.
  intros Hs Hf. pose proof (finditer_first_spec delimiter_regex x pos) as H.
  rewrite Hf in H. destruct H as (H1 & (H2 & H3 & H4) & _).
  rewrite <- (py_slice_join x start s e) by lia.
  apply matches_default in H4.
  apply (split_go_blank_tail (length (py_slice x start s))); [lia | exact H4].
Qed.

Lemma lines_unfold (self : ReceiveBuffer) :
  wf self ->
  maybe_extract_lines self =
  if bytes_eqb (py_slice (_data self) (_start self) (_start self + 2)) [CR; LF]
  then (Ok (Some []), set_start self (_start self + 2))
  else
    let self1 :=
      set_delimiter_regex (set_delimiter self default_delimiter)
                          delimiter_regex in
    match finditer_first delimiter_regex (_data self)
            (resume_position self default_delimiter) with
    | None => (Ok None, set_looked_at self1 (len (_data self)))
    | Some (_, e) =>
        (Ok (Some (del_last_two
                     (re_split line_delimiter_regex
                        (py_slice (_data self) (_start self) e)))),
         set_start self1 e)
    end.
Proof.
  intros Hwf. pose proof Hwf as [Hc Hr]. pose proof Hc as [Hs Hl].
  unfold maybe_extract_lines. simpl py_eq at 1.
  destruct (bytes_eqb _ [CR; LF]); [reflexivity|].
  rewrite bare_lf_test_false by lia.
  change [LF; CR; QMARK; LF] with default_delimiter.
  rewrite (until_delimiter_unfold self default_delimiter delimiter_regex Hwf
             default_delimiter_compiled).
  cbv zeta.
  destruct (finditer_first delimiter_regex (_data self)
              (resume_position self default_delimiter)) as [[s e]|] eqn:Ef;
    [|reflexivity].
  destruct (blank_block_split (_data self) (_start self)
              (resume_position self default_delimiter) s e) as [pre Hpre];
    [pose proof (resume_position_search_pos self default_delimiter Hc); lia
    | exact Ef |].
  rewrite Hpre.
  unfold list_from_end. rewrite rev_app_distr. simpl.
  reflexivity.
Qed.

Lemma lines_wf (self : ReceiveBuffer) :
  wf self -> wf (snd (maybe_extract_lines self)).
Proof.
  intros Hwf. rewrite (lines_unfold self Hwf).
  pose proof Hwf as [Hc Hr]. pose proof Hc as [Hs Hl].
  destruct (bytes_eqb _ [CR; LF]) eqn:E.
  - apply bytes_eqb_eq in E.
    pose proof (py_slice_len_le (_data self) (_start self) (_start self + 2) Hs)
      as Hle.
    rewrite E in Hle. unfold wf, cursors_ok. simpl in *.
    change (len [CR; LF]) with 2 in Hle. repeat split; try lia. exact Hr.
  - pose proof (finditer_first_spec delimiter_regex (_data self)
                  (resume_position self default_delimiter)) as H.
    pose proof (resume_position_search_pos self default_delimiter Hc) as Hp.
    cbv zeta.
    destruct (finditer_first delimiter_regex (_data self)
                (resume_position self default_delimiter)) as [[s e]|]; simpl.
    + destruct H as (H1 & (H2 & H3 & _) & _).
      unfold wf, cursors_ok. simpl. repeat split; try lia.
    + unfold wf, cursors_ok. simpl. repeat split; try lia.
Qed.

(** ** Sequences of calls: the states they reach *)

Lemma call_wf (o : op) (self : ReceiveBuffer) :
  op_supported o -> wf self -> wf (snd (call o self)).
Proof.
  intros Ho Hwf. destruct o as [c| |n|d|]; simpl.
  - now apply iadd_wf.
  - now apply compress_wf.
  - now apply at_most_wf.
  - now apply until_delimiter_wf.
  - now apply lines_wf.
Qed.

Lemma final_wf (ops : list op) :
  forall self, Forall op_supported ops -> wf self -> wf (final ops self).
Proof.
  induction ops as [|o ops IH]; intros self Hok Hwf; simpl; [exact Hwf|].
  inversion Hok as [|? ? Ho Hops]; subst.
  apply IH; [exact Hops | now apply call_wf].
Qed.

(** ** Claims on single calls *)

(** C1.  [maybe_extract_until_delimiter], on a buffer in a state it can be
    in and for a delimiter of the fragment, searches from the resume
    position (the offset handed to the search, brought into the sequence;
    it is that offset itself when the delimiter is not empty).  Either the
    search reports a first match [(s, e)]: it is an occurrence of the
    pattern that starts at or after the resume position, no occurrence
    starts before it from there on, the call returns exactly
    [storage[start:e]] and sets [start = e]; or there is no occurrence from
    the resume position on, the call returns [None], sets the search
    cursor to [len(storage)] and leaves [start] as it was. *)
Theorem until_delimiter_first_match
  (self : ReceiveBuffer) (delimiter : bytes) (r : regex) :
  wf self -> re_compile delimiter = Some r ->
  let x := _data self in
  let pos := search_pos x (resume_position self delimiter) in
  let res := maybe_extract_until_delimiter self delimiter in
  (delimiter <> [] -> pos = resume_position self delimiter) /\
  _start self <= pos /\
  ((exists s e,
       finditer_first r x (resume_position self delimiter) = Some (s, e) /\
       pos <= s /\ occurs r x s e /\
       (forall s' e', pos <= s' < s -> ~ occurs r x s' e') /\
       fst res = Ok (Some (py_slice x (_start self) e)) /\
       len (py_slice x (_start self) e) = e - _start self /\
       _start (snd res) = e /\
       _looked_at (snd res) = _looked_at self /\
       _data (snd res) = x)
   \/
   ((forall s' e', pos <= s' -> ~ occurs r x s' e') /\
    fst res = Ok None /\
    _looked_at (snd res) = len x /\
    _start (snd res) = _start self /\
    _data (snd res) = x)).
Proof.
  intros Hwf Hd x pos res. pose proof Hwf as [Hc Hr]. pose proof Hc as [Hs Hl].
  split; [intros Hne; now apply resume_position_inside|].
  pose proof (resume_position_search_pos self delimiter Hc) as Hp.
  split; [exact Hp|].
  pose proof (finditer_first_spec r x (resume_position self delimiter)) as H.
  unfold res. rewrite (until_delimiter_unfold self delimiter r Hwf Hd).
  cbv zeta. fold x.
  destruct (finditer_first r x (resume_position self delimiter))
    as [[s e]|] eqn:Ef.
  - left. exists s, e. destruct H as (H1 & H2 & H3).
    pose proof H2 as (H4 & H5 & _). fold pos in Hp.
    unfold pos, x in *. simpl.
    split; [reflexivity|]. split; [exact H1|]. split; [exact H2|].
    split; [exact H3|]. split; [reflexivity|].
    split; [apply py_slice_len; lia|]. now repeat split.
  - right. repeat split; try assumption; reflexivity.
Qed.

Lemma until_delimiter_first_match_witness :
  let self := __iadd__ __init__ crlf_block in
  wf self /\
  fst (maybe_extract_until_delimiter self default_delimiter)
    = Ok (Some crlf_block).
Proof.
  intros self.
  assert (Hwf : wf self).
  { concrete_state. }
  split; [exact Hwf|].
  destruct (until_delimiter_first_match self default_delimiter delimiter_regex
              Hwf eq_refl) as (_ & _ & [(s & e & Hf & _ & _ & _ & Hr & _) | (_ & Hn & _)]).
  - rewrite Hr. vm_compute in Hf. injection Hf as <- <-. reflexivity.
  - vm_compute in Hn. discriminate Hn.
Defined.

(** C3, as the specification states it, fails: on a buffer that holds
    bytes, [maybe_extract_at_most(0)] returns [None], the signal of an
    empty buffer, and not an empty byte sequence. *)
Lemma at_most_zero_returns_none :
  let self := __iadd__ __init__ abc in
  __bytes__ self <> [] /\
  fst (maybe_extract_at_most self 0) = None /\
  fst (maybe_extract_at_most self 0) <> Some [].
Proof. repeat split; simpl; discriminate. Qed.

(** C3, amended.  With a count [n] that is not negative,
    [maybe_extract_at_most] returns [None] exactly when
    [min(n, available)] is zero, that is when the unconsumed region is
    empty or [n] is zero, and then changes nothing; otherwise it returns
    exactly [min(n, available)] bytes from [start] on and advances [start]
    by that number. *)
Theorem at_most_min (self : ReceiveBuffer) (n : Z) :
  cursors_ok self -> 0 <= n ->
  let k := Z.min n (__len__ self) in
  let res := maybe_extract_at_most self n in
  (fst res = None <-> k = 0) /\
  (k = 0 <-> __bytes__ self = [] \/ n = 0) /\
  (k = 0 -> snd res = self) /\
  (0 < k ->
   fst res = Some (py_slice (_data self) (_start self) (_start self + k)) /\
   len (py_slice (_data self) (_start self) (_start self + k)) = k /\
   snd res = set_start self (_start self + k)).
Proof.
  intros [Hs Hl] Hn k res. unfold __len__ in k.
  assert (Hout : py_slice (_data self) (_start self) (_start self + n) =
                 py_slice (_data self) (_start self) (_start self + k)).
  { destruct (Z.le_gt_cases n (len (_data self) - _start self)) as [Hc|Hc].
    - unfold k. now rewrite Z.min_l by lia.
    - unfold k. rewrite Z.min_r by lia.
      rewrite !py_slice_to_end by lia. reflexivity. }
  assert (Hlen : len (py_slice (_data self) (_start self) (_start self + k)) = k).
  { rewrite py_slice_len by (unfold k; lia). lia. }
  assert (Hbytes : len (__bytes__ self) = len (_data self) - _start self).
  { unfold __bytes__. apply py_slice_from_len. lia. }
  unfold res, maybe_extract_at_most. rewrite Hout.
  destruct (py_slice (_data self) (_start self) (_start self + k))
    as [|c out] eqn:E.
  - change (len []) with 0 in Hlen. simpl.
    split; [split; [intros _; lia | reflexivity]|].
    split.
    + split; [|intros _; lia]. intros _.
      destruct (Z.eq_dec n 0) as [->|Hn0]; [now right|]. left.
      destruct (__bytes__ self); [reflexivity|].
      unfold k in Hlen. unfold len in *. simpl length in Hbytes. lia.
    + split; [reflexivity | lia].
  - assert (Hk : 0 < k) by (rewrite <- Hlen; unfold len; simpl; lia).
    simpl fst. simpl snd.
    split; [split; [discriminate | lia]|].
    split.
    + split; [lia|]. intros [Hb | ->]; [|unfold k in Hk; lia].
      rewrite Hb in Hbytes. change (len []) with 0 in Hbytes.
      unfold k in Hk. lia.
    + split; [lia|]. intros _. rewrite Hlen. now repeat split.
Qed.

Lemma at_most_min_witness :
  let self := __iadd__ __init__ abc in
  cursors_ok self /\
  fst (maybe_extract_at_most self 2) = Some ["a"; "b"]%byte /\
  fst (maybe_extract_at_most self 0) = None.
Proof.
  intros self.
  assert (Hc : cursors_ok self) by concrete_state.
  split; [exact Hc|]. split.
  - destruct (at_most_min self 2 Hc ltac:(lia)) as (_ & _ & _ & H).
    destruct H as (H & _); [vm_compute; reflexivity | exact H].
  - destruct (at_most_min self 0 Hc ltac:(lia)) as (H & _).
    apply H. reflexivity.
Defined.

(** C4.  The delimiter split over two appends: after [b"ab\r"] the search
    for the default pattern finds nothing; after [b"\n\r\n"] the second
    call starts from [max(start, searched - (pattern_length - 1))], which
    is offset 0, returns [b"ab\r\n\r\n"] and leaves nothing unconsumed. *)
Theorem split_delimiter_across_appends :
  let s1 := __iadd__ __init__ ["a"; "b"; "013"]%byte in
  let c1 := maybe_extract_until_delimiter s1 default_delimiter in
  let s2 := __iadd__ (snd c1) ["010"; "013"; "010"]%byte in
  let c2 := maybe_extract_until_delimiter s2 default_delimiter in
  fst c1 = Ok None /\
  _start (snd c1) = 0 /\ _looked_at (snd c1) = 3 /\
  fst (prepare_search s2 default_delimiter) =
    Ok (Z.max (_start s2) (_looked_at s2 - (len default_delimiter - 1))) /\
  Z.max (_start s2) (_looked_at s2 - (len default_delimiter - 1)) = 0 /\
  fst c2 = Ok (Some ["a"; "b"; "013"; "010"; "013"; "010"]%byte) /\
  _start (snd c2) = 6 /\
  __bytes__ (snd c2) = [] /\
  __len__ (snd c2) = 0.
Proof. vm_compute. repeat split; reflexivity. Qed.

(** C5 fails on the code: the test for a bare line feed compares the
    integer [self._data[self._start]] with the byte sequence [b"\n"] and so
    is never true.  On a buffer that holds [b"\nabc"] the call consumes
    nothing and returns [None]; on one that holds [b"\n\nabc"] it consumes
    two bytes and returns one empty line. *)
Theorem bare_lf_branch_not_taken :
  let self := __iadd__ __init__ (LF :: abc) in
  let self2 := __iadd__ __init__ (LF :: LF :: abc) in
  py_slice (_data self) (_start self) (_start self + 2) <> [CR; LF] /\
  py_slice (_data self) (_start self) (_start self + 1) = [LF] /\
  fst (maybe_extract_lines self) = Ok None /\
  _start (snd (maybe_extract_lines self)) = _start self /\
  fst (maybe_extract_lines self2) = Ok (Some [[]]) /\
  _start (snd (maybe_extract_lines self2)) = _start self2 + 2.
Proof. vm_compute. repeat split; try reflexivity. discriminate. Qed.

(** C6, as the specification states it, fails: extracting bytes moves
    [start] and leaves the search cursor behind it, and compaction then
    makes the search cursor negative. *)
Lemma cursors_order_counterexample :
  let self := final [Append abc; AtMost 2] __init__ in
  let self' := final [Append abc; AtMost 2; Compress] __init__ in
  (_start self = 2 /\ _looked_at self = 0 /\
   ~ (0 <= _start self /\ _start self <= _looked_at self /\
      _looked_at self <= len (_data self))) /\
  (_looked_at self' = -2 /\
   ~ (0 <= _start self' /\ _start self' <= _looked_at self' /\
      _looked_at self' <= len (_data self'))).
Proof. vm_compute. repeat split; try reflexivity; intros [H1 [H2 H3]]; auto. Qed.

(** C6, amended.  In every state reached from the fresh buffer by appends,
    extractions (with delimiters of the fragment) and compactions,
    [0 <= start <= len(storage)] and [searched <= len(storage)]. *)
Theorem cursors_invariant (ops : list op) :
  Forall op_supported ops ->
  let self := final ops __init__ in
  0 <= _start self <= len (_data self) /\
  _looked_at self <= len (_data self).
Proof.
  intros Hok self. destruct (final_wf ops __init__ Hok init_wf) as [Hc _].
  exact Hc.
Qed.

Lemma cursors_invariant_witness :
  let ops := [Append abc; AtMost 2; Compress; UntilDelimiter default_delimiter;
              Lines] in
  Forall op_supported ops /\
  0 <= _start (final ops __init__) <= len (_data (final ops __init__)).
Proof.
  intros ops.
  assert (Hok : Forall op_supported ops).
  { repeat constructor. exists delimiter_regex. reflexivity. }
  split; [exact Hok|]. exact (proj1 (cursors_invariant ops Hok)).
Defined.

(** ** Header blocks *)

(** The stored bytes are the consumed ones followed by the unconsumed. *)
Lemma data_split (self : ReceiveBuffer) :
  cursors_ok self ->
  exists pre,
    _data self = pre ++ __bytes__ self /\ len pre = _start self.
Proof.
  intros [Hs Hl]. exists (firstn (Z.to_nat (_start self)) (_data self)).
  unfold __bytes__. rewrite py_slice_from_inside by lia.
  split; [now rewrite firstn_skipn|].
  unfold len in *. rewrite length_firstn. lia.
Qed.

Lemma header_block_search (k : Z) :
  0 <= k <= 16 ->
  finditer_first delimiter_regex header_block k = Some (16, 19).
Proof.
  intros Hk.
  assert (H : k = 0 \/ k = 1 \/ k = 2 \/ k = 3 \/ k = 4 \/ k = 5 \/ k = 6 \/
              k = 7 \/ k = 8 \/ k = 9 \/ k = 10 \/ k = 11 \/ k = 12 \/
              k = 13 \/ k = 14 \/ k = 15 \/ k = 16) by lia.
  repeat (destruct H as [-> | H]; [reflexivity|]). subst k. reflexivity.
Qed.

(** C7.  On a buffer (in any state it can be in) whose unconsumed region
    is exactly [b"Host: x\r\nFoo: y\r\n\r\n"], [maybe_extract_lines]
    returns the lines [b"Host: x"] and [b"Foo: y"], in that order, and
    leaves nothing unconsumed; on one whose unconsumed region is exactly
    [b"\r\n"] it consumes two bytes and returns no line. *)
Theorem header_block_lines (self : ReceiveBuffer) :
  wf self ->
  (__bytes__ self = header_block ->
   fst (maybe_extract_lines self) = Ok (Some [host_line; foo_line]) /\
   _start (snd (maybe_extract_lines self)) = _start self + len header_block /\
   __bytes__ (snd (maybe_extract_lines self)) = []) /\
  (__bytes__ self = [CR; LF] ->
   fst (maybe_extract_lines self) = Ok (Some []) /\
   _start (snd (maybe_extract_lines self)) = _start self + 2 /\
   __bytes__ (snd (maybe_extract_lines self)) = []).
Proof.
  intros Hwf. pose proof Hwf as [Hc Hr]. pose proof Hc as [Hs Hl].
  destruct (data_split self Hc) as (pre & Hdata & Hpre).
  rewrite (lines_unfold self Hwf).
  assert (Hsl : forall a, 0 <= a ->
            py_slice (_data self) (_start self) (_start self + a) =
            py_slice (__bytes__ self) 0 a).
  { intros a Ha. rewrite Hdata at 1. rewrite <- Hpre.
    replace (len pre) with (0 + len pre) at 1 by lia.
    rewrite (Z.add_comm (len pre) a). now apply py_slice_shift. }
  assert (Hend : forall self1 e,
            _data self1 = _data self -> _start self1 = _start self + e ->
            e = len (__bytes__ self) -> __bytes__ self1 = []).
  { intros self1 e H1 H2 H3. unfold __bytes__ in *.
    rewrite py_slice_from_len in H3 by lia.
    rewrite H1, H2, py_slice_from_inside by lia.
    apply skipn_all2. unfold len in *. lia. }
  split; intros Hb.
  - rewrite (Hsl 2) by lia. rewrite Hb.
    change (bytes_eqb (py_slice header_block 0 2) [CR; LF]) with false.
    cbv iota zeta.
    pose proof (resume_position_ge_start self default_delimiter) as Hge.
    assert (Hle : resume_position self default_delimiter <= _start self + 16).
    { assert (Hlen : len (_data self) = _start self + 19).
      { rewrite Hdata, len_app, Hpre, Hb. reflexivity. }
      unfold resume_position.
      destruct (bytes_eqb default_delimiter (_delimiter self));
        change (len default_delimiter) with 4; lia. }
    assert (Hf : finditer_first delimiter_regex (_data self)
                   (resume_position self default_delimiter) =
                 Some (_start self + 16, _start self + 19)).
    { set (p := resume_position self default_delimiter) in *.
      replace p with ((p - _start self) + len pre) by lia.
      rewrite Hdata, finditer_first_shift by lia.
      rewrite Hb, header_block_search by lia. cbn [option_map fst snd].
      do 2 f_equal; lia. }
    rewrite Hf. cbn [fst snd].
    rewrite (Hsl 19) by lia. rewrite Hb.
    split; [reflexivity|]. split; [reflexivity|].
    apply (Hend _ 19); [reflexivity | reflexivity | now rewrite Hb].
  - rewrite (Hsl 2) by lia. rewrite Hb.
    change (bytes_eqb (py_slice [CR; LF] 0 2) [CR; LF]) with true.
    cbv iota. cbn [fst snd].
    split; [reflexivity|]. split; [reflexivity|].
    apply (Hend _ 2); [reflexivity | reflexivity | now rewrite Hb].
Qed.

Lemma header_block_lines_witness :
  let self := __iadd__ __init__ header_block in
  let self2 := __iadd__ __init__ [CR; LF] in
  wf self /\ wf self2 /\
  fst (maybe_extract_lines self) = Ok (Some [host_line; foo_line]) /\
  fst (maybe_extract_lines self2) = Ok (Some []).
Proof.
  intros self self2.
  assert (Hwf : wf self) by concrete_state.
  assert (Hwf2 : wf self2) by concrete_state.
  split; [exact Hwf|]. split; [exact Hwf2|]. split.
  - exact (proj1 (proj1 (header_block_lines self Hwf) eq_refl)).
  - exact (proj1 (proj2 (header_block_lines self2 Hwf2) eq_refl)).
Defined.

(** C9.  A block that ends with a match of the blank-line pattern
    ([b"\n\n"] or [b"\n\r\n"]) splits on the line delimiter into a list
    whose last two elements are empty; the blocks that
    [maybe_extract_until_delimiter] returns for the default pattern are
    such blocks; and so [maybe_extract_lines] never fails its assertion,
    and raises no other error either, whatever bytes the buffer holds. *)
Theorem lines_assertion_never_fails (self : ReceiveBuffer) :
  wf self ->
  (forall u m, blank_line m ->
     exists pre,
       re_split line_delimiter_regex (u ++ m) = pre ++ [[]; []]) /\
  (forall block,
     fst (maybe_extract_until_delimiter self default_delimiter)
       = Ok (Some block) ->
     (exists u m, blank_line m /\ block = u ++ m) /\
     exists pre,
       re_split line_delimiter_regex block = pre ++ [[]; []] /\
       list_from_end (re_split line_delimiter_regex block) 2 = Ok [] /\
       list_from_end (re_split line_delimiter_regex block) 1 = Ok []) /\
  (forall e, fst (maybe_extract_lines self) <> Raise e).
Proof.
  intros Hwf. pose proof Hwf as [Hc Hr]. pose proof Hc as [Hs Hl].
  split; [|split].
  - intros u m Hm. apply (split_go_blank_tail (length u)); [lia | exact Hm].
  - intros block.
    rewrite (until_delimiter_unfold self default_delimiter delimiter_regex Hwf
               default_delimiter_compiled).
    cbv zeta.
    pose proof (finditer_first_spec delimiter_regex (_data self)
                  (resume_position self default_delimiter)) as H.
    pose proof (resume_position_search_pos self default_delimiter Hc) as Hp.
    destruct (finditer_first delimiter_regex (_data self)
                (resume_position self default_delimiter)) as [[s e]|] eqn:Ef;
      [|discriminate].
    simpl. intros [= <-]. destruct H as (H1 & (H2 & H3 & H4) & _).
    apply matches_default in H4.
    assert (Hblock : py_slice (_data self) (_start self) e =
                     py_slice (_data self) (_start self) s ++
                     py_slice (_data self) s e)
      by (symmetry; apply py_slice_join; lia).
    split.
    + exists (py_slice (_data self) (_start self) s),
             (py_slice (_data self) s e). now split.
    + rewrite Hblock.
      destruct (split_go_blank_tail
                  (length (py_slice (_data self) (_start self) s))
                  (py_slice (_data self) (_start self) s)
                  (py_slice (_data self) s e) [] (le_n _) H4) as [pre Hpre].
      exists pre. unfold re_split. rewrite Hpre.
      split; [reflexivity|].
      unfold list_from_end. rewrite rev_app_distr. simpl. now split.
  - intros e. rewrite (lines_unfold self Hwf).
    destruct (bytes_eqb _ [CR; LF]); [discriminate|]. cbv zeta.
    destruct (finditer_first delimiter_regex (_data self) _) as [[s e']|];
      discriminate.
Qed.

Lemma lines_assertion_never_fails_witness :
  let self := __iadd__ __init__ (LF :: CR :: LF :: LF :: abc) in
  wf self /\
  fst (maybe_extract_lines self) <> Raise AssertionError.
Proof.
  intros self.
  assert (Hwf : wf self) by concrete_state.
  split; [exact Hwf|].
  exact (proj2 (proj2 (lines_assertion_never_fails self Hwf)) AssertionError).
Defined.

(** ** Nothing lost, nothing repeated *)

Lemma appended_cons (o : op) (ops : list op) :
  appended (o :: ops) = appended [o] ++ appended ops.
Proof. destruct o; simpl; try reflexivity. now rewrite app_nil_r. Qed.

Lemma bytes_after (self self1 : ReceiveBuffer) (e : Z) :
  0 <= _start self -> _start self <= e -> e <= len (_data self) ->
  _data self1 = _data self -> _start self1 = e ->
  py_slice (_data self) (_start self) e ++ __bytes__ self1 = __bytes__ self.
Proof.
  intros H1 H2 H3 Hd He. unfold __bytes__. rewrite Hd, He.
  now apply py_slice_then_rest.
Qed.

(** What one call consumes is what it returns, and the unconsumed region
    loses exactly that and gains exactly what is appended. *)
Lemma call_consumed (o : op) (self : ReceiveBuffer) :
  op_supported o -> wf self ->
  carries (fst (call o self)) (consumed o self (snd (call o self))) /\
  consumed o self (snd (call o self)) ++ __bytes__ (snd (call o self)) =
  __bytes__ self ++ appended [o].
Proof.
  intros Ho Hwf. pose proof Hwf as [Hc Hr]. pose proof Hc as [Hs Hl].
  destruct o as [c| |n|d|]; unfold consumed; cbn [is_extraction call fst snd appended].
  - split; [reflexivity|]. unfold __bytes__, __iadd__. simpl.
    rewrite !py_slice_from_inside by (rewrite ?len_app; pose proof (len_nonneg c); lia).
    rewrite skipn_app.
    replace (Z.to_nat (_start self) - length (_data self))%nat with O
      by (unfold len in *; lia).
    now rewrite app_nil_r.
  - split; [reflexivity|]. rewrite app_nil_r. rewrite compress_fields.
    destruct (len (_data self) / 2 <? _start self); [|reflexivity].
    unfold __bytes__, py_del_prefix. simpl.
    rewrite (py_slice_from_inside _ 0)
      by (split; [lia | apply len_nonneg]).
    reflexivity.
  - rewrite app_nil_r. unfold maybe_extract_at_most.
    pose proof (py_slice_as_len (_data self) (_start self) (_start self + n) Hs)
      as Has.
    pose proof (py_slice_len_le (_data self) (_start self) (_start self + n) Hs)
      as Hle.
    destruct (py_slice (_data self) (_start self) (_start self + n))
      as [|b out] eqn:E; cbn [fst snd].
    + rewrite py_slice_empty. now split.
    + cbn [_data _start set_start]. rewrite <- Has.
      split; [reflexivity|]. rewrite Has at 1.
      apply bytes_after; try reflexivity;
        pose proof (len_nonneg (b :: out)); lia.
  - rewrite app_nil_r. destruct Ho as [r Hd].
    rewrite (until_delimiter_unfold self d r Hwf Hd). cbv zeta.
    pose proof (finditer_first_spec r (_data self) (resume_position self d)) as H.
    pose proof (resume_position_search_pos self d Hc) as Hp.
    destruct (finditer_first r (_data self) (resume_position self d))
      as [[s e]|]; cbn [fst snd _data _start set_start set_looked_at
                        set_delimiter set_delimiter_regex].
    + destruct H as (H1 & (H2 & H3 & _) & _).
      split; [reflexivity|]. apply bytes_after; try reflexivity; lia.
    + rewrite py_slice_empty. now split.
  - rewrite app_nil_r. rewrite (lines_unfold self Hwf).
    destruct (bytes_eqb _ [CR; LF]) eqn:E.
    + apply bytes_eqb_eq in E. cbn [fst snd _data _start set_start].
      rewrite E. split.
      * exists [[CR; LF]]. split; [reflexivity|]. split; [|reflexivity].
        constructor; [now right | constructor].
      * rewrite <- E.
        pose proof (py_slice_len_le (_data self) (_start self)
                      (_start self + 2) Hs) as Hle.
        rewrite E in Hle. change (len [CR; LF]) with 2 in Hle.
        apply bytes_after; try reflexivity; lia.
    + cbv zeta.
      pose proof (finditer_first_spec delimiter_regex (_data self)
                    (resume_position self default_delimiter)) as H.
      pose proof (resume_position_search_pos self default_delimiter Hc) as Hp.
      destruct (finditer_first delimiter_regex (_data self)
                  (resume_position self default_delimiter))
        as [[s e]|] eqn:Ef; cbn [fst snd _data _start set_start set_looked_at
                                 set_delimiter set_delimiter_regex].
      * destruct H as (H1 & (H2 & H3 & _) & _).
        split; [|apply bytes_after; try reflexivity; lia].
        destruct (blank_block_split (_data self) (_start self)
                    (resume_position self default_delimiter) s e)
          as [pre Hpre]; [lia | exact Ef |].
        set (block := py_slice (_data self) (_start self) e) in *.
        destruct (split_go_rejoin (length block) block [] (le_n _))
          as (ds & Hd1 & Hd2 & Hd3).
        fold (re_split line_delimiter_regex block) in Hd1, Hd3.
        rewrite Hpre in Hd1, Hd3 |- *. rewrite del_last_two_app.
        rewrite length_app in Hd1. simpl in Hd1.
        exists ds. split; [unfold bytes in *; lia|]. split; [exact Hd2|].
        simpl app in Hd3. rewrite <- Hd3. symmetry.
        apply rejoin_drop_empties.
        unfold bytes in *; lia.
      * rewrite py_slice_empty. now split.
Qed.

Lemma run_lossless (ops : list op) :
  forall self, Forall op_supported ops -> wf self ->
    Forall (fun ev => carries (ev_ret ev) (ev_consumed ev)) (run ops self) /\
    concat (map ev_consumed (run ops self)) ++ __bytes__ (final ops self) =
    __bytes__ self ++ appended ops.
Proof.
  induction ops as [|o ops IH]; intros self Hok Hwf.
  - simpl. split; [constructor | now rewrite app_nil_r].
  - inversion Hok as [|? ? Ho Hops]; subst.
    destruct (call_consumed o self Ho Hwf) as [Hcar Hcon].
    destruct (IH (snd (call o self)) Hops (call_wf o self Ho Hwf))
      as [IH1 IH2].
    cbn [run final map concat ev_consumed]. split.
    + constructor; [exact Hcar | exact IH1].
    + rewrite <- app_assoc, IH2, app_assoc, Hcon, <- app_assoc.
      now rewrite <- appended_cons.
Qed.

Lemma py_slice_middle (a seg rest : bytes) :
  py_slice (a ++ seg ++ rest) (len a) (len a + len seg) = seg.
Proof.
  pose proof (len_nonneg a). pose proof (len_nonneg seg).
  pose proof (len_nonneg rest).
  rewrite py_slice_inside by (rewrite ?len_app; lia).
  replace (Z.to_nat (len a)) with (length a) by (unfold len; lia).
  replace (Z.to_nat (len a + len seg - len a)) with (length seg)
    by (unfold len; lia).
  rewrite skipn_app, skipn_all, Nat.sub_diag. simpl.
  rewrite firstn_app, firstn_all, Nat.sub_diag. simpl. apply app_nil_r.
Qed.

(** C2.  For every sequence of appends, compactions and extractions
    (with delimiters of the fragment) on a fresh buffer: what each call
    consumes is what it returns (the bytes it returns, or the lines it
    returns with their delimiters put back, and nothing when it returns
    [None]); the consumed segments, in call order, followed by what is
    still unconsumed, are exactly the bytes appended, so that their
    concatenation is a prefix of the appended bytes; each segment is the
    slice of the appended bytes that starts where the segments before it
    end; and a segment that holds bytes starts strictly before every
    later one. *)
Theorem lossless_reconstruction (ops : list op) :
  Forall op_supported ops ->
  let evs := run ops __init__ in
  let offset before := len (concat (map ev_consumed before)) in
  Forall (fun ev => carries (ev_ret ev) (ev_consumed ev)) evs /\
  concat (map ev_consumed evs) ++ __bytes__ (final ops __init__)
    = appended ops /\
  (forall before ev after, evs = before ++ ev :: after ->
     ev_consumed ev =
     py_slice (appended ops) (offset before)
              (offset before + len (ev_consumed ev))) /\
  (forall before ev mid ev' after,
     evs = before ++ ev :: mid ++ ev' :: after ->
     offset before + len (ev_consumed ev) <= offset (before ++ ev :: mid) /\
     (ev_consumed ev <> [] -> offset before < offset (before ++ ev :: mid))).
Proof.
  intros Hok evs offset.
  destruct (run_lossless ops __init__ Hok init_wf) as [H1 H2].
  fold evs in H1, H2. change (__bytes__ __init__) with (@nil byte) in H2.
  simpl app in H2. split; [exact H1|]. split; [exact H2|]. split.
  - intros before ev after Hevs. rewrite <- H2, Hevs.
    rewrite map_app, concat_app. cbn [map concat].
    rewrite <- !app_assoc. unfold offset. now rewrite py_slice_middle.
  - intros before ev mid ev' after _. unfold offset.
    rewrite map_app, concat_app, len_app. cbn [map concat]. rewrite len_app.
    pose proof (len_nonneg (concat (map ev_consumed mid))) as Hmid.
    split; [lia|]. intros Hne.
    assert (0 < len (ev_consumed ev))
      by (destruct (ev_consumed ev); [contradiction | unfold len; simpl; lia]).
    lia.
Qed.

Lemma lossless_reconstruction_witness :
  let ops := [Append (LF :: abc); Lines; AtMost 2; Append header_block;
              Compress; UntilDelimiter [LF]; Lines; AtMost (-1)] in
  Forall op_supported ops /\
  concat (map ev_consumed (run ops __init__)) ++ __bytes__ (final ops __init__)
    = appended ops.
Proof.
  intros ops.
  assert (Hok : Forall op_supported ops).
  { repeat constructor. exists [Lit LF]. reflexivity. }
  split; [exact Hok|]. exact (proj1 (proj2 (lossless_reconstruction ops Hok))).
Defined.

(** ** Compaction *)

Lemma shifted_refl (self : ReceiveBuffer) : shifted 0 self self.
Proof. exists []. repeat split; simpl; lia. Qed.

(** The calls keep two buffers shifted, and return the same from both. *)
Section Shifted.

Variables (k : Z) (a b : ReceiveBuffer).
Hypothesis Hwa : wf a.
Hypothesis Hwb : wf b.
Hypothesis Hsh : shifted k a b.

Lemma resume_position_shifted (d : bytes) :
  resume_position a d = resume_position b d + k.
Proof.
  destruct Hsh as (pre & Hk & Hd & Hs & Hl & Hdl & Hre).
  unfold resume_position.
  rewrite Hdl, Hs, Hl. destruct (bytes_eqb d (_delimiter b)); lia.
Qed.

Lemma slice_shifted (e : Z) :
  0 <= e ->
  py_slice (_data a) (_start a) (e + k) = py_slice (_data b) (_start b) e.
Proof.
  intros He. destruct Hwb as [[Hsb Hlb] _].
  destruct Hsh as (pre & Hk & Hd & Hsa & Hla & Hdl & Hre).
  rewrite Hd, Hsa, <- Hk. apply py_slice_shift; lia.
Qed.

Lemma search_shifted (r : regex) (pos : Z) :
  0 <= pos ->
  finditer_first r (_data a) (pos + k) =
  option_map (fun se => (fst se + k, snd se + k))
             (finditer_first r (_data b) pos).
Proof.
  intros Hpos. destruct Hsh as (pre & Hk & Hd & Hsa & Hla & Hdl & Hre).
  rewrite Hd, <- Hk. now apply finditer_first_shift.
Qed.

Lemma compress_shifted : exists k', shifted k' a (compress b).
Proof.
  destruct Hwb as [[Hs Hl] Hr].
  destruct Hsh as (pre & Hk & Hd & Hsa & Hla & Hdl & Hre).
  rewrite compress_fields.
  destruct (len (_data b) / 2 <? _start b).
  - exists (k + _start b).
    exists (pre ++ firstn (Z.to_nat (_start b)) (_data b)). simpl.
    unfold py_del_prefix. rewrite slice_bound_inside by lia.
    rewrite <- app_assoc, firstn_skipn, len_app.
    repeat split; try assumption; try lia.
    unfold len in *. rewrite length_firstn. lia.
  - exists k, pre. now repeat split.
Qed.

Lemma until_delimiter_shifted (d : bytes) :
  supported d ->
  fst (maybe_extract_until_delimiter a d) =
  fst (maybe_extract_until_delimiter b d) /\
  shifted k (snd (maybe_extract_until_delimiter a d))
            (snd (maybe_extract_until_delimiter b d)).
Proof.
  intros [r Hr].
  rewrite (until_delimiter_unfold a d r Hwa Hr).
  rewrite (until_delimiter_unfold b d r Hwb Hr). cbv zeta.
  rewrite resume_position_shifted.
  pose proof (resume_position_ge_start b d) as Hge.
  pose proof (finditer_first_spec r (_data b) (resume_position b d)) as Hspec.
  pose proof Hwb as [[Hsb Hlb] _].
  rewrite search_shifted by lia.
  destruct Hsh as (pre & Hk & Hd & Hsa & Hla & Hdl & Hre).
  destruct (finditer_first r (_data b) (resume_position b d)) as [[s e]|];
    cbn [option_map fst snd].
  - destruct Hspec as (_ & (H1 & H2 & _) & _). split.
    + rewrite slice_shifted by lia. reflexivity.
    + exists pre. simpl. repeat split; try assumption; lia.
  - split; [reflexivity|]. exists pre. simpl. rewrite Hd, len_app.
    repeat split; try assumption; lia.
Qed.

Lemma at_most_shifted (n : Z) :
  0 <= n ->
  fst (maybe_extract_at_most a n) = fst (maybe_extract_at_most b n) /\
  shifted k (snd (maybe_extract_at_most a n)) (snd (maybe_extract_at_most b n)).
Proof.
  intros Hn. pose proof Hwb as [[Hsb Hlb] _].
  unfold maybe_extract_at_most.
  assert (Hout : py_slice (_data a) (_start a) (_start a + n) =
                 py_slice (_data b) (_start b) (_start b + n)).
  { rewrite <- slice_shifted by lia. f_equal.
    destruct Hsh as (pre & Hk & Hd & Hsa & _). lia. }
  rewrite Hout.
  destruct Hsh as (pre & Hk & Hd & Hsa & Hla & Hdl & Hre).
  destruct (py_slice (_data b) (_start b) (_start b + n)); cbn [fst snd].
  - split; [reflexivity|]. exists pre. now repeat split.
  - split; [reflexivity|]. exists pre. simpl. repeat split; try assumption; lia.
Qed.

Lemma lines_shifted :
  fst (maybe_extract_lines a) = fst (maybe_extract_lines b) /\
  shifted k (snd (maybe_extract_lines a)) (snd (maybe_extract_lines b)).
Proof.
  rewrite (lines_unfold a Hwa), (lines_unfold b Hwb).
  rewrite resume_position_shifted.
  pose proof Hwb as [[Hsb Hlb] _].
  pose proof (resume_position_ge_start b default_delimiter) as Hge.
  pose proof (finditer_first_spec delimiter_regex (_data b)
                (resume_position b default_delimiter)) as Hspec.
  rewrite search_shifted by lia.
  assert (Hsl := slice_shifted).
  destruct Hsh as (pre & Hk & Hd & Hsa & Hla & Hdl & Hre).
  replace (_start a + 2) with (_start b + 2 + k) by lia.
  rewrite Hsl by lia.
  destruct (bytes_eqb _ [CR; LF]).
  - split; [reflexivity|]. exists pre. simpl. repeat split; try assumption; lia.
  - cbv zeta.
    destruct (finditer_first delimiter_regex (_data b)
                (resume_position b default_delimiter)) as [[s e]|];
      cbn [option_map fst snd].
    + destruct Hspec as (_ & (H1 & H2 & _) & _).
      rewrite Hsl by lia. split; [reflexivity|].
      exists pre. simpl. repeat split; try assumption; lia.
    + split; [reflexivity|]. exists pre. simpl. rewrite Hd, len_app.
      repeat split; try assumption; lia.
Qed.

Lemma call_shifted (o : op) :
  op_ok o -> is_compress o = false ->
  fst (call o a) = fst (call o b) /\
  shifted k (snd (call o a)) (snd (call o b)).
Proof.
  intros Ho Hnc. destruct o as [c| |n|d|]; cbn [call fst snd].
  - split; [reflexivity|].
    destruct Hsh as (pre & Hk & Hd & Hsa & Hla & Hdl & Hre).
    exists pre. simpl. rewrite Hd, app_assoc. now repeat split.
  - discriminate.
  - destruct (at_most_shifted n Ho) as [-> H]. now split.
  - destruct (until_delimiter_shifted d Ho) as [-> H]. now split.
  - destruct lines_shifted as [-> H]. now split.
Qed.

End Shifted.

Lemma op_ok_supported (o : op) : op_ok o -> op_supported o.
Proof. destruct o; simpl; auto. Qed.

Lemma returns_shifted (ops : list op) :
  forall k a b, Forall op_ok ops -> wf a -> wf b -> shifted k a b ->
    returns (without_compress ops) a = returns ops b.
Proof.
  induction ops as [|o ops IH]; intros k a b Hok Hwa Hwb Hsh; [reflexivity|].
  inversion Hok as [|? ? Ho Hops]; subst.
  unfold without_compress. cbn [filter].
  destruct (is_compress o) eqn:Ec; cbn [negb].
  - destruct o; try discriminate. cbn [returns is_extraction call snd].
    destruct (compress_shifted k a b Hwb Hsh) as [k' Hsh'].
    apply (IH k'); try assumption. now apply compress_wf.
  - destruct (call_shifted k a b Hwa Hwb Hsh o Ho Ec) as [Hret Hsh'].
    cbn [returns]. rewrite Hret.
    assert (Hrest : returns (without_compress ops) (snd (call o a)) =
                    returns ops (snd (call o b))).
    { apply (IH k); try assumption;
        apply call_wf; try assumption; now apply op_ok_supported. }
    fold (without_compress ops). rewrite Hrest. reflexivity.
Qed.

(** C8, as the specification states it, fails twice.  On the rebasing:
    the search cursor is not floored at 0; after appending [b"abc"] and
    extracting two bytes, [start] is 2 and the search cursor 0, compaction
    fires and leaves the search cursor at -2.  On the results, for a
    count that is negative: with [b"abcdef"] appended and four bytes
    extracted, [maybe_extract_at_most(-5)] returns [b"e"] (the slice
    [storage[4:-1]]), and returns [None] when a compaction is put before
    it (the slice [storage[0:-5]] of the two bytes left). *)
Lemma compress_not_as_claimed :
  let self := final [Append abc; AtMost 2] __init__ in
  let ops := [Append abcdef; AtMost 4; AtMost (-5)] in
  let ops' := [Append abcdef; AtMost 4; Compress; AtMost (-5)] in
  ((len (_data self) / 2 <? _start self) = true /\
   _looked_at (compress self) = -2 /\
   _looked_at (compress self) <> Z.max (_looked_at self - _start self) 0) /\
  (returns ops __init__ =
     [RetBytes (Ok (Some ["a"; "b"; "c"; "d"]%byte));
      RetBytes (Ok (Some ["e"]%byte))] /\
   returns ops' __init__ =
     [RetBytes (Ok (Some ["a"; "b"; "c"; "d"]%byte)); RetBytes (Ok None)] /\
   returns ops' __init__ <> returns ops __init__).
Proof. vm_compute. repeat split; discriminate. Qed.

(** C8, amended.  For the delimiter patterns of the specification (fixed
    literal bytes, each of which may be followed by [?]: the fragment) and
    counts that are not negative: taking the compactions out of a
    sequence of calls on a fresh buffer leaves the values returned by its
    extractions as they are, so that a compaction put in at any point
    changes no result.  (A pattern whose matches depend on the bytes
    before the offset the search starts from, such as the anchored [^b],
    is outside the fragment, and nothing is stated for it.)  A compaction
    does something only when [start] exceeds half of [len(storage)]: it
    then removes [storage[0:start]], sets [start] to 0 and the search
    cursor to its old value minus the old [start], which is not floored
    and may be negative; otherwise the buffer stays as it is. *)
Theorem compress_transparent (ops : list op) :
  Forall op_ok ops ->
  returns ops __init__ = returns (without_compress ops) __init__ /\
  (forall before after,
     ops = before ++ after ->
     returns (before ++ Compress :: after) __init__ = returns ops __init__) /\
  (forall self, wf self ->
     (len (_data self) < 2 * _start self ->
      py_slice (_data self) 0 (_start self) ++ _data (compress self)
        = _data self /\
      _start (compress self) = 0 /\
      _looked_at (compress self) = _looked_at self - _start self /\
      __bytes__ (compress self) = __bytes__ self) /\
     (2 * _start self <= len (_data self) -> compress self = self)).
Proof.
  intros Hok.
  assert (Herase : forall l, Forall op_ok l ->
            returns l __init__ = returns (without_compress l) __init__).
  { intros l Hl. symmetry.
    apply (returns_shifted l 0); try assumption;
      [apply init_wf | apply init_wf | apply shifted_refl]. }
  split; [now apply Herase|]. split.
  - intros before after ->.
    apply Forall_app in Hok as [Hb Ha].
    rewrite (Herase (before ++ after)) by (apply Forall_app; now split).
    rewrite (Herase (before ++ Compress :: after)).
    + unfold without_compress. rewrite !filter_app. reflexivity.
    + apply Forall_app. split; [exact Hb|]. constructor; [exact I | exact Ha].
  - intros self [[Hs Hl] Hr]. rewrite compress_fields. split.
    + intros Hlt.
      assert (Hc : (len (_data self) / 2 <? _start self) = true).
      { apply Z.ltb_lt. apply Z.div_lt_upper_bound; lia. }
      rewrite Hc. cbn [_data _start _looked_at].
      split; [|split; [reflexivity | split; [reflexivity|]]].
      * change (py_del_prefix (_data self) (_start self))
          with (py_slice_from (_data self) (_start self)).
        rewrite py_slice_then_rest by lia. apply py_slice_from_inside.
        pose proof (len_nonneg (_data self)). lia.
      * unfold __bytes__, py_del_prefix. cbn [_data _start].
        rewrite (py_slice_from_inside _ 0)
          by (split; [lia | apply len_nonneg]).
        reflexivity.
    + intros Hle.
      assert (Hc : (len (_data self) / 2 <? _start self) = false).
      { apply Z.ltb_ge. apply Z.div_le_lower_bound; lia. }
      now rewrite Hc.
Qed.

Lemma compress_transparent_witness :
  let ops := [Append (LF :: abc); AtMost 3; Compress; Append header_block;
              AtMost 1; Compress; Lines; UntilDelimiter [LF]] in
  Forall op_ok ops /\
  returns ops __init__ = returns (without_compress ops) __init__.
Proof.
  intros ops.
  assert (Hok : Forall op_ok ops).
  { repeat constructor; try (simpl; lia). exists [Lit LF]. reflexivity. }
  split; [exact Hok|]. exact (proj1 (compress_transparent ops Hok)).
Defined.

(** ** Rescanning *)

(** The empty pattern matches wherever the search starts. *)
Lemma finditer_first_empty (x : bytes) (pos : Z) :
  finditer_first [] x pos <> None.
Proof.
  unfold finditer_first. destruct (skipn _ x); simpl; discriminate.
Qed.

(** A call that finds nothing examines the bytes from the resume position
    to the end of the storage, and leaves fewer than [len d] of them to
    be examined again. *)
Lemma poll_none (self : ReceiveBuffer) (d : bytes) :
  wf self -> supported d ->
  fst (maybe_extract_until_delimiter self d) = Ok None ->
  1 <= len d /\
  until_delimiter_examined self d = unscanned d self /\
  0 <= unscanned d self /\
  unscanned d (snd (maybe_extract_until_delimiter self d)) <= len d - 1.
Proof.
  intros Hwf [r Hd]. pose proof Hwf as [Hc Hr]. pose proof Hc as [Hs Hl].
  unfold until_delimiter_examined.
  rewrite (prepare_search_unfold self d r Hwf Hd).
  rewrite (until_delimiter_unfold self d r Hwf Hd). cbv zeta.
  cbn [_data _delimiter_regex set_delimiter set_delimiter_regex].
  destruct (finditer_first r (_data self) (resume_position self d))
    as [[s e]|] eqn:Ef; [discriminate|]. intros _.
  assert (Hne : d <> []).
  { intros ->. simpl in Hd. injection Hd as <-.
    exact (finditer_first_empty _ _ Ef). }
  assert (Hm : 1 <= len d)
    by (destruct d; [contradiction | unfold len; simpl; lia]).
  pose proof (resume_position_inside self d Hc Hne) as Hin.
  pose proof (search_pos_range (_data self) (resume_position self d)) as Hrg.
  rewrite (finditer_examined_none _ _ _ Ef), Hin.
  unfold unscanned. split; [exact Hm|]. split; [reflexivity|].
  split; [lia|].
  cbn [snd]. unfold resume_position.
  cbn [_data _start _looked_at _delimiter set_looked_at set_delimiter
       set_delimiter_regex].
  rewrite bytes_eqb_refl. lia.
Qed.

Lemma unscanned_iadd (d : bytes) (self : ReceiveBuffer) (c : bytes) :
  unscanned d (__iadd__ self c) = unscanned d self + len c.
Proof.
  unfold unscanned, resume_position. simpl. rewrite len_app. lia.
Qed.

Lemma total_examined_bound (d : bytes) (ops : list op) :
  forall self, wf self -> supported d ->
    Forall (append_or_poll d) ops ->
    Forall nothing_found (run ops self) ->
    total_examined ops self <=
    Z.max 0 (unscanned d self) + len (appended ops) + polls ops * (len d - 1).
Proof.
  induction ops as [|o ops IH]; intros self Hwf Hd Hshape Hnone.
  - simpl. change (len []) with 0. lia.
  - inversion Hshape as [|? ? Ho Hops]; subst.
    cbn [run] in Hnone. inversion Hnone as [|? ? Hev Hrest]; subst.
    destruct Ho as [[c ->] | ->].
    + cbn [total_examined examined call snd appended polls] in *.
      specialize (IH (__iadd__ self c) (iadd_wf self c Hwf) Hd Hops Hrest).
      rewrite unscanned_iadd in IH. rewrite len_app.
      pose proof (len_nonneg c). lia.
    + cbn [total_examined examined call snd fst appended polls] in *.
      destruct Hev as [Hev | Hev]; [discriminate|].
      unfold nothing_found in Hev. cbn [ev_ret] in Hev.
      injection Hev as Hev.
      destruct (poll_none self d Hwf Hd Hev) as (Hm & Hex & H0 & Hafter).
      specialize (IH _ (until_delimiter_wf self d Hwf Hd) Hd Hops Hrest).
      rewrite Hex. lia.
Qed.

Lemma poll_default_examined (k : nat) :
  Forall nothing_found (run (poll_default k) __init__) /\
  len (appended (poll_default k)) = 3 /\
  total_examined (poll_default k) __init__ = 3 * Z.of_nat k.
Proof.
  unfold poll_default. cbn [run total_examined examined call snd fst appended].
  set (s0 := __iadd__ __init__ abc).
  set (s1 := snd (maybe_extract_until_delimiter s0 default_delimiter)).
  assert (Hstep : call (UntilDelimiter default_delimiter) s1 =
                  (RetBytes (Ok None), s1)) by reflexivity.
  assert (Hex : examined (UntilDelimiter default_delimiter) s1 = 3)
    by reflexivity.
  assert (Hrep : forall n,
            Forall nothing_found
              (run (repeat (UntilDelimiter default_delimiter) n) s1) /\
            appended (repeat (UntilDelimiter default_delimiter) n) = [] /\
            total_examined (repeat (UntilDelimiter default_delimiter) n) s1
              = 3 * Z.of_nat n).
  { induction n as [|n (IH1 & IH2 & IH3)].
    - simpl. repeat split. constructor.
    - cbn [repeat run total_examined appended]. rewrite Hstep, Hex.
      cbn [fst snd]. split; [|split].
      + constructor; [now right | exact IH1].
      + exact IH2.
      + rewrite IH3. lia. }
  destruct k as [|k].
  - simpl. repeat split. constructor; [now left | constructor].
  - destruct (Hrep k) as (H1 & H2 & H3).
    cbn [repeat run total_examined appended].
    change (snd (call (UntilDelimiter default_delimiter) s0)) with s1.
    rewrite H2, H3. split; [|split].
    + constructor; [now left|]. constructor; [now right | exact H1].
    + reflexivity.
    + change (examined (UntilDelimiter default_delimiter) s0) with 3. lia.
Qed.

(** C10, as the specification states it, fails: with [b"abc"] in the
    buffer, every call for the default pattern finds nothing and examines
    the same three bytes again, so no constant times the three bytes
    appended bounds what the calls examine together. *)
Lemma rescanning_grows_with_calls :
  ~ exists c : Z, forall k : nat,
      Forall nothing_found (run (poll_default k) __init__) ->
      total_examined (poll_default k) __init__
        <= c * len (appended (poll_default k)).
Proof.
  intros [c H]. specialize (H (Z.to_nat (Z.abs c + 1))).
  destruct (poll_default_examined (Z.to_nat (Z.abs c + 1))) as (H1 & H2 & H3).
  specialize (H H1). rewrite H2, H3 in H. lia.
Qed.

(** C10, amended.  On a fresh buffer, over appends and calls of
    [maybe_extract_until_delimiter] with one delimiter of the fragment
    that all find nothing, the searches examine together at most the
    bytes appended plus [pattern_length - 1] bytes for each call.  A call
    for the remembered delimiter that finds nothing examines the bytes
    from [max(start, searched - (pattern_length - 1))] to the end of the
    storage: at most the bytes beyond the search cursor and
    [pattern_length - 1] bytes before it. *)
Theorem rescanning_bound (d : bytes) (ops : list op) :
  supported d ->
  Forall (append_or_poll d) ops ->
  Forall nothing_found (run ops __init__) ->
  total_examined ops __init__ <=
    len (appended ops) + polls ops * (len d - 1) /\
  (forall self, wf self -> _delimiter self = d ->
     fst (maybe_extract_until_delimiter self d) = Ok None ->
     until_delimiter_examined self d =
       len (_data self) - Z.max (_start self) (_looked_at self - (len d - 1)) /\
     until_delimiter_examined self d <=
       (len (_data self) - _looked_at self) + (len d - 1)).
Proof.
  intros Hd Hshape Hnone. split.
  - pose proof (total_examined_bound d ops __init__ init_wf Hd Hshape Hnone)
      as H.
    assert (H0 : unscanned d __init__ = 0).
    { unfold unscanned, resume_position. simpl.
      destruct (bytes_eqb d [LF; CR; QMARK; LF]) eqn:E; [|reflexivity].
      apply bytes_eqb_eq in E. subst d. reflexivity. }
    rewrite H0 in H. lia.
  - intros self Hwf Hdel Hret.
    destruct (poll_none self d Hwf Hd Hret) as (Hm & Hex & H0 & _).
    rewrite Hex. unfold unscanned, resume_position in *.
    rewrite <- Hdel, bytes_eqb_refl in *. lia.
Qed.

Lemma rescanning_bound_witness :
  let ops := [Append abc; UntilDelimiter [LF]; Append abc;
              UntilDelimiter [LF]; UntilDelimiter [LF]] in
  supported [LF] /\
  Forall (append_or_poll [LF]) ops /\
  Forall nothing_found (run ops __init__) /\
  total_examined ops __init__ <= 6.
Proof.
  intros ops.
  assert (Hd : supported [LF]) by (exists [Lit LF]; reflexivity).
  assert (Hshape : Forall (append_or_poll [LF]) ops).
  { unfold ops.
    repeat (apply Forall_cons;
            [first [now right | left; eexists; reflexivity]|]).
    apply Forall_nil. }
  assert (Hnone : Forall nothing_found (run ops __init__)).
  { unfold ops. cbn [run].
    repeat (apply Forall_cons; [first [now left | now right]|]).
    apply Forall_nil. }
  split; [exact Hd|]. split; [exact Hshape|]. split; [exact Hnone|].
  exact (proj1 (rescanning_bound [LF] ops Hd Hshape Hnone)).
Defined.

(** * Further properties of the buffer *)

(** ** Length, truth value and unconsumed bytes *)

(** X1.  On a buffer whose cursor lies inside the storage, [len(buf)] is
    the number of unconsumed bytes, it is not negative, and [bool(buf)]
    holds exactly when there are unconsumed bytes. *)
Theorem len_bool_bytes (self : ReceiveBuffer) :
  cursors_ok self ->
  __len__ self = len (__bytes__ self) /\
  0 <= __len__ self /\
  (__bool__ self = true <-> __bytes__ self <> []).
Proof.
  intros [Hs Hl].
  assert (Hlen : len (__bytes__ self) = __len__ self)
    by (unfold __bytes__, __len__; apply py_slice_from_len; lia).
  split; [now symmetry|]. split; [unfold __len__; lia|].
  unfold __bool__. rewrite <- Hlen. split.
  - intros H Hnil. rewrite Hnil in H. discriminate.
  - intros H. destruct (__bytes__ self); [contradiction | reflexivity].
Qed.

Lemma len_bool_bytes_witness :
  let self := snd (maybe_extract_at_most (__iadd__ __init__ abc) 2) in
  cursors_ok self /\ __len__ self = 1 /\ __bool__ self = true.
Proof.
  intros self.
  assert (Hc : cursors_ok self) by concrete_state.
  split; [exact Hc|].
  destruct (len_bool_bytes self Hc) as (H1 & _ & H2).
  split; [rewrite H1; reflexivity | apply H2; discriminate].
Defined.

(** X2.  Appending puts the chunk at the end of the unconsumed region and
    adds its length to [len(buf)]; appending nothing changes nothing; two
    appends are the append of the two chunks joined. *)
Theorem iadd_extends (self : ReceiveBuffer) (a b : bytes) :
  cursors_ok self ->
  __bytes__ (__iadd__ self a) = __bytes__ self ++ a /\
  __len__ (__iadd__ self a) = __len__ self + len a /\
  __iadd__ self [] = self /\
  __iadd__ (__iadd__ self a) b = __iadd__ self (a ++ b).
Proof.
  intros [Hs Hl]. split; [|split; [|split]].
  - unfold __bytes__, __iadd__. simpl.
    rewrite !py_slice_from_inside
      by (rewrite ?len_app; pose proof (len_nonneg a); lia).
    rewrite skipn_app.
    replace (Z.to_nat (_start self) - length (_data self))%nat with O
      by (unfold len in *; lia).
    reflexivity.
  - unfold __len__, __iadd__. simpl. rewrite len_app. lia.
  - unfold __iadd__, set_data. rewrite app_nil_r. now destruct self.
  - unfold __iadd__, set_data. simpl. now rewrite app_assoc.
Qed.

Lemma iadd_extends_witness :
  let self := snd (maybe_extract_at_most (__iadd__ __init__ abc) 2) in
  cursors_ok self /\
  __bytes__ (__iadd__ self abc) = ["c"; "a"; "b"; "c"]%byte.
Proof.
  intros self.
  assert (Hc : cursors_ok self) by concrete_state.
  split; [exact Hc|].
  rewrite (proj1 (iadd_extends self abc [] Hc)). reflexivity.
Defined.

(** ** Compaction *)

(** X3.  Compacting twice is compacting once; compaction leaves the
    unconsumed bytes as they are, never makes the storage longer, and
    leaves a storage at most twice as long as the unconsumed region. *)
Theorem compress_idempotent_bound (self : ReceiveBuffer) :
  cursors_ok self ->
  compress (compress self) = compress self /\
  __bytes__ (compress self) = __bytes__ self /\
  len (_data (compress self)) <= len (_data self) /\
  len (_data (compress self)) <= 2 * __len__ (compress self).
Proof.
  intros [Hs Hl]. rewrite !compress_fields.
  destruct (len (_data self) / 2 <? _start self) eqn:E.
  - cbn [_data _start _looked_at].
    pose proof (py_del_prefix_len (_data self) (_start self) Hs) as Hlen.
    assert (Hno : (len (py_del_prefix (_data self) (_start self)) / 2 <? 0)
                  = false).
    { apply Z.ltb_ge. apply Z.div_pos; lia. }
    rewrite Hno. unfold __len__, __bytes__. cbn [_data _start].
    split; [reflexivity|]. split.
    + unfold py_del_prefix.
      rewrite (py_slice_from_inside _ 0) by (split; [lia | apply len_nonneg]).
      reflexivity.
    + lia.
  - rewrite E. apply Z.ltb_ge in E.
    assert (2 * _start self <= len (_data self)).
    { pose proof (Z.mul_div_le (len (_data self)) 2). lia. }
    unfold __len__. repeat split; lia.
Qed.

Lemma compress_idempotent_bound_witness :
  let self := snd (maybe_extract_at_most (__iadd__ __init__ abc) 2) in
  cursors_ok self /\
  _data (compress self) = ["c"]%byte /\
  compress (compress self) = compress self.
Proof.
  intros self.
  assert (Hc : cursors_ok self) by concrete_state.
  split; [exact Hc|]. split; [reflexivity|].
  exact (proj1 (compress_idempotent_bound self Hc)).
Defined.

(** ** Bounded extraction with any count *)

(** X4.  Whatever the count, negative ones included,
    [maybe_extract_at_most] either returns [None] and leaves the buffer as
    it is, or returns a non-empty prefix of the unconsumed bytes and moves
    [start] past it: it never returns an empty byte sequence.  A negative
    count is not refused: it is a slice bound counted from the end of the
    storage, so that a count below [-start] extracts
    [len(storage) + count] bytes when that is positive, and a count from
    [-start] to 0 extracts nothing. *)
Theorem at_most_any_count (self : ReceiveBuffer) (count : Z) :
  cursors_ok self ->
  let res := maybe_extract_at_most self count in
  match fst res with
  | None => snd res = self
  | Some out =>
      out <> [] /\
      __bytes__ self = out ++ __bytes__ (snd res) /\
      _start (snd res) = _start self + len out /\
      _data (snd res) = _data self /\
      _looked_at (snd res) = _looked_at self
  end /\
  (- _start self <= count <= 0 -> fst res = None) /\
  (count < - _start self -> 0 < len (_data self) + count ->
   exists out, fst res = Some out /\ len out = len (_data self) + count).
Proof.
  intros [Hs Hl] res. unfold res, maybe_extract_at_most.
  pose proof (py_slice_as_len (_data self) (_start self) (_start self + count) Hs)
    as Has.
  pose proof (py_slice_len_le (_data self) (_start self) (_start self + count) Hs)
    as Hle.
  assert (Hcount : forall h,
            slice_bound (len (_data self)) (_start self + count) = h ->
            len (py_slice (_data self) (_start self) (_start self + count)) =
            Z.max 0 (h - _start self)).
  { intros h Hh. unfold py_slice. rewrite Hh.
    rewrite (slice_bound_inside (len (_data self)) (_start self)) by lia.
    pose proof (slice_bound_range (len (_data self)) (_start self + count)
                  (len_nonneg _)) as Hr. rewrite Hh in Hr.
    unfold len in *. rewrite length_firstn, length_skipn. lia. }
  split; [|split].
  - destruct (py_slice (_data self) (_start self) (_start self + count))
      as [|c out] eqn:E; cbn [fst snd]; [reflexivity|].
    split; [discriminate|]. cbn [_data _start _looked_at set_start].
    split; [|now repeat split].
    rewrite Has at 1. symmetry.
    apply bytes_after; try reflexivity; pose proof (len_nonneg (c :: out)); lia.
  - intros Hc.
    assert (Hb : slice_bound (len (_data self)) (_start self + count) =
                 _start self + count) by (apply slice_bound_inside; lia).
    specialize (Hcount _ Hb).
    destruct (py_slice (_data self) (_start self) (_start self + count));
      [reflexivity|]. unfold len in Hcount. simpl in Hcount. lia.
  - intros Hc Hpos.
    assert (Hb : slice_bound (len (_data self)) (_start self + count) =
                 _start self + count + len (_data self)).
    { unfold slice_bound.
      destruct (_start self + count <? 0) eqn:E;
        [lia | apply Z.ltb_ge in E; lia]. }
    specialize (Hcount _ Hb).
    destruct (py_slice (_data self) (_start self) (_start self + count))
      as [|c out] eqn:E.
    + change (len []) with 0 in Hcount. lia.
    + exists (c :: out). split; [reflexivity | lia].
Qed.

Lemma at_most_any_count_witness :
  let self := snd (maybe_extract_at_most (__iadd__ __init__ header_block) 4) in
  cursors_ok self /\
  fst (maybe_extract_at_most self (-3)) = None /\
  exists out, fst (maybe_extract_at_most self (-5)) = Some out /\ len out = 14.
Proof.
  intros self.
  assert (Hc : cursors_ok self) by concrete_state.
  split; [exact Hc|].
  destruct (at_most_any_count self (-3) Hc) as (_ & H1 & _).
  destruct (at_most_any_count self (-5) Hc) as (_ & _ & H2).
  split.
  - apply H1. simpl. lia.
  - apply H2; simpl; unfold len; simpl; lia.
Defined.

(** ** The delimiter search and the first occurrence *)

(** When no occurrence starts between [start] and the offset the search
    starts from, the call answers about the first occurrence in the
    unconsumed region. *)
Lemma until_delimiter_leftmost (self : ReceiveBuffer) (d : bytes) (r : regex) :
  wf self -> re_compile d = Some r ->
  (forall s e,
     _start self <= s < search_pos (_data self) (resume_position self d) ->
     ~ occurs r (_data self) s e) ->
  first_occurrence r self (fst (maybe_extract_until_delimiter self d)).
Proof.
  intros Hwf Hd Hskip. pose proof Hwf as [Hc _].
  rewrite (until_delimiter_unfold self d r Hwf Hd). cbv zeta.
  pose proof (finditer_first_spec r (_data self) (resume_position self d)) as H.
  pose proof (resume_position_search_pos self d Hc) as Hp.
  destruct (finditer_first r (_data self) (resume_position self d))
    as [[s e]|]; cbn [fst first_occurrence].
  - destruct H as (H1 & H2 & H3). exists s, e.
    split; [lia|]. split; [exact H2|]. split; [|reflexivity].
    intros s' e' Hs'.
    destruct (Z.lt_ge_cases s' (search_pos (_data self) (resume_position self d)))
      as [Hlt|Hge]; [apply Hskip; lia | apply H3; lia].
  - intros s e Hs.
    destruct (Z.lt_ge_cases s (search_pos (_data self) (resume_position self d)))
      as [Hlt|Hge]; [apply Hskip; lia | apply H; lia].
Qed.



(** The soundness of the search cursor is kept by every call that does
    not search for another delimiter. *)
Lemma call_scanned (d : bytes) (r : regex) (o : op) (self : ReceiveBuffer) :
  re_compile d = Some r -> d <> [] ->
  wf self -> scanned d r self -> uses_only d o ->
  scanned d r (snd (call o self)).
Proof.
  intros Hd Hne Hwf Hsc Ho. pose proof Hwf as [Hc Hr]. pose proof Hc as [Hs Hl].
  assert (Hm : 1 <= len d)
    by (destruct d; [contradiction | unfold len; simpl; lia]).
  assert (Hsearch : forall self1 la,
            _data self1 = _data self -> _start self1 = _start self ->
            _looked_at self1 = _looked_at self ->
            match finditer_first r (_data self) (resume_position self d) with
            | None => scanned d r (set_looked_at self1 la)
            | Some (_, e) => scanned d r (set_start self1 e)
            end).
  { intros self1 la H1 H2 H3.
    pose proof (finditer_first_spec r (_data self) (resume_position self d)) as H.
    pose proof (resume_position_search_pos self d Hc) as Hp.
    pose proof (resume_position_inside self d Hc Hne) as Hin.
    destruct (finditer_first r (_data self) (resume_position self d))
      as [[s0 e0]|]; intros s e Hse Hocc;
      cbn [_data _start _looked_at set_start set_looked_at] in *;
      rewrite ?H1, ?H2, ?H3 in *.
    - destruct H as (Ha & (Hb & _) & _). apply (Hsc s e); [lia | exact Hocc].
    - exfalso. pose proof (Hsc s e Hse Hocc) as Hge.
      apply (H s e); [|exact Hocc]. rewrite Hin. unfold resume_position.
      destruct (bytes_eqb d (_delimiter self)); lia. }
  destruct o as [c| |n|d'|]; cbn [call snd].
  - intros s e Hse (H1 & H2 & H3). cbn [__iadd__ set_data _data _start _looked_at] in *.
    destruct (Z.le_gt_cases e (len (_data self))) as [He|He].
    + apply (Hsc s e); [exact Hse|]. repeat split; try lia.
      now rewrite <- (py_slice_app_l (_data self) c) by lia.
    + apply matches_length in H3. apply re_compile_length in Hd.
      assert (Hlen : len (py_slice (_data self ++ c) s e) = e - s)
        by (apply py_slice_len; lia).
      unfold len in *. lia.
  - rewrite compress_fields.
    destruct (len (_data self) / 2 <? _start self); [|exact Hsc].
    intros s e Hse (H1 & H2 & H3). cbn [_data _start _looked_at] in *.
    rewrite py_del_prefix_len in H2 by lia.
    assert (Hocc : occurs r (_data self) (s + _start self) (e + _start self)).
    { repeat split; try lia.
      destruct (data_split self Hc) as (pre & Hdata & Hpre).
      rewrite Hdata, <- Hpre. rewrite py_slice_shift by lia.
      unfold __bytes__, py_slice_from. exact H3. }
    assert (Hfrom : _start self <= s + _start self) by lia.
    pose proof (Hsc (s + _start self) (e + _start self) Hfrom Hocc). lia.
  - unfold maybe_extract_at_most.
    destruct (py_slice (_data self) (_start self) (_start self + n)) as [|b out];
      [exact Hsc|].
    intros s e Hse Hocc. cbn [snd _data _start _looked_at set_start] in *.
    apply (Hsc s e); [|exact Hocc]. pose proof (len_nonneg (b :: out)). lia.
  - simpl in Ho. subst d'.
    rewrite (until_delimiter_unfold self d r Hwf Hd). cbv zeta.
    specialize (Hsearch (set_delimiter_regex (set_delimiter self d) r)
                  (len (_data self)) eq_refl eq_refl eq_refl).
    destruct (finditer_first r (_data self) (resume_position self d))
      as [[s0 e0]|]; exact Hsearch.
  - simpl in Ho. subst d.
    rewrite default_delimiter_compiled in Hd. injection Hd as <-.
    rewrite (lines_unfold self Hwf).
    destruct (bytes_eqb _ [CR; LF]).
    + intros s e Hse Hocc. cbn [snd _data _start _looked_at set_start] in *.
      apply (Hsc s e); [lia | exact Hocc].
    + cbv zeta.
      specialize (Hsearch (set_delimiter_regex
                             (set_delimiter self default_delimiter)
                             delimiter_regex)
                    (len (_data self)) eq_refl eq_refl eq_refl).
      destruct (finditer_first delimiter_regex (_data self)
                  (resume_position self default_delimiter)) as [[s0 e0]|];
        exact Hsearch.
Qed.

Lemma init_scanned (d : bytes) (r : regex) : d <> [] -> scanned d r __init__.
Proof.
  intros Hne s e Hs (H1 & H2 & _). simpl in *. change (len []) with 0 in H2.
  assert (1 <= len d)
    by (destruct d; [contradiction | unfold len; simpl; lia]).
  lia.
Qed.

Lemma uses_only_supported (d : bytes) (r : regex) (o : op) :
  re_compile d = Some r -> uses_only d o -> op_supported o.
Proof.
  intros Hd Ho. destruct o; simpl in *; try exact I. subst. now exists r.
Qed.

Lemma final_scanned (d : bytes) (r : regex) (ops : list op) :
  re_compile d = Some r -> d <> [] ->
  forall self, wf self -> scanned d r self -> Forall (uses_only d) ops ->
    wf (final ops self) /\ scanned d r (final ops self).
Proof.
  intros Hd Hne. induction ops as [|o ops IH]; intros self Hwf Hsc Hok.
  - now split.
  - inversion Hok as [|? ? Ho Hops]; subst. cbn [final]. apply IH.
    + apply call_wf; [now apply (uses_only_supported d r) | exact Hwf].
    + now apply call_scanned.
    + exact Hops.
Qed.

(** A sound search cursor makes the call answer about the first
    occurrence in the unconsumed region. *)
Lemma scanned_first_occurrence (self : ReceiveBuffer) (d : bytes) (r : regex) :
  wf self -> re_compile d = Some r -> d <> [] -> scanned d r self ->
  first_occurrence r self (fst (maybe_extract_until_delimiter self d)).
Proof.
  intros Hwf Hd Hne Hsc. pose proof Hwf as [Hc _].
  apply until_delimiter_leftmost; try assumption.
  intros s e Hse Hocc. rewrite (resume_position_inside self d Hc Hne) in Hse.
  assert (Hfrom : _start self <= s) by lia.
  pose proof (Hsc s e Hfrom Hocc) as Hge.
  unfold resume_position in Hse.
  destruct (bytes_eqb d (_delimiter self)); lia.
Qed.

(** X6.  When the calls on a fresh buffer search for one delimiter only,
    and that delimiter is a non-empty pattern of the fragment (fixed
    literal bytes, each of which may be followed by [?], so that no match
    is longer than the delimiter is written), with appends, bounded
    extractions and compactions in any order between the searches,
    resuming the search from the remembered cursor loses nothing: the next
    [maybe_extract_until_delimiter] for that delimiter returns the bytes up
    to the end of the leftmost occurrence in the unconsumed region, and
    [None] only when the unconsumed region has no occurrence.  (A pattern
    with a match longer than its source, such as [a{5}], is outside the
    fragment, and nothing is stated for it.) *)
Theorem single_delimiter_search_complete
  (d : bytes) (r : regex) (ops : list op) :
  re_compile d = Some r -> d <> [] -> Forall (uses_only d) ops ->
  let self := final ops __init__ in
  first_occurrence r self (fst (maybe_extract_until_delimiter self d)).
Proof.
  intros Hd Hne Hok self.
  destruct (final_scanned d r ops Hd Hne __init__ init_wf
              (init_scanned d r Hne) Hok) as [Hwf Hsc].
  now apply scanned_first_occurrence.
Qed.

Lemma single_delimiter_search_complete_witness :
  let ops := [Append ["a"; "b"; "013"]%byte;
              UntilDelimiter default_delimiter;
              Append ["010"; "013"; "010"; "z"]%byte; AtMost 1; Compress] in
  Forall (uses_only default_delimiter) ops /\
  first_occurrence delimiter_regex (final ops __init__)
    (Ok (Some ["b"; "013"; "010"; "013"; "010"]%byte)).
Proof.
  intros ops.
  assert (Hok : Forall (uses_only default_delimiter) ops)
    by (repeat constructor).
  split; [exact Hok|].
  exact (single_delimiter_search_complete default_delimiter
           delimiter_regex ops eq_refl ltac:(discriminate) Hok).
Defined.

(** ** Changing the delimiter *)

(** X7.  The search cursor is not reset by a search for another delimiter
    that succeeds.  After a search for [A] that finds nothing, a search
    for a different delimiter [B] that succeeds leaves the cursor at the
    end of the storage; the next search for [B] then starts from
    [max(start, len(storage) - len(B) + 1)] and returns [None] when [B]
    has no occurrence from there on, although [B] occurs in the
    unconsumed region: the answer is not the one about the first
    occurrence. *)
Theorem stale_cursor_skips
  (self : ReceiveBuffer) (A B : bytes) (rA rB : regex) :
  wf self -> re_compile A = Some rA -> re_compile B = Some rB ->
  A <> B -> B <> [] ->
  let s1 := snd (maybe_extract_until_delimiter self A) in
  let s2 := snd (maybe_extract_until_delimiter s1 B) in
  fst (maybe_extract_until_delimiter self A) = Ok None ->
  (exists out, fst (maybe_extract_until_delimiter s1 B) = Ok (Some out)) ->
  (exists s e, _start s2 <= s /\ occurs rB (_data s2) s e) ->
  (forall s e, len (_data self) - len B + 1 <= s ->
               ~ occurs rB (_data self) s e) ->
  resume_position s2 B = Z.max (_start s2) (len (_data self) - len B + 1) /\
  fst (maybe_extract_until_delimiter s2 B) = Ok None /\
  ~ first_occurrence rB s2 (fst (maybe_extract_until_delimiter s2 B)).
Proof.
  intros Hwf HA HB Hne HBne s1 s2 HnoneA [out Hout] Hocc Hend.
  assert (Hwf1 : wf s1) by (apply until_delimiter_wf; [exact Hwf | now exists rA]).
  assert (Hwf2 : wf s2) by (apply until_delimiter_wf; [exact Hwf1 | now exists rB]).
  assert (Hs1 : _data s1 = _data self /\ _looked_at s1 = len (_data self) /\
                _delimiter s1 = A).
  { unfold s1. revert HnoneA.
    rewrite (until_delimiter_unfold self A rA Hwf HA). cbv zeta.
    destruct (finditer_first rA (_data self) (resume_position self A))
      as [[s e]|]; [discriminate|]. intros _. now repeat split. }
  destruct Hs1 as (Hd1 & Hl1 & Hdel1).
  assert (Hs2 : _data s2 = _data self /\ _looked_at s2 = len (_data self) /\
                _delimiter s2 = B).
  { unfold s2. revert Hout.
    rewrite (until_delimiter_unfold s1 B rB Hwf1 HB). cbv zeta.
    destruct (finditer_first rB (_data s1) (resume_position s1 B))
      as [[s e]|]; [|discriminate]. intros _. cbn [snd].
    cbn [_data _looked_at _delimiter set_start set_delimiter
         set_delimiter_regex]. now repeat split. }
  destruct Hs2 as (Hd2 & Hl2 & Hdel2).
  assert (Hres : resume_position s2 B =
                 Z.max (_start s2) (len (_data self) - len B + 1)).
  { unfold resume_position. now rewrite Hdel2, bytes_eqb_refl, Hl2. }
  assert (Hnone : fst (maybe_extract_until_delimiter s2 B) = Ok None).
  { rewrite (until_delimiter_unfold s2 B rB Hwf2 HB). cbv zeta.
    pose proof (finditer_first_spec rB (_data s2) (resume_position s2 B)) as H.
    pose proof (resume_position_inside s2 B (proj1 Hwf2) HBne) as Hin.
    destruct (finditer_first rB (_data s2) (resume_position s2 B))
      as [[s e]|]; [|reflexivity].
    exfalso. destruct H as (H1 & H2 & _). rewrite Hin, Hres in H1.
    rewrite Hd2 in H2. apply (Hend s e); [lia | exact H2]. }
  split; [exact Hres|]. split; [exact Hnone|].
  rewrite Hnone. cbn [first_occurrence]. intros Hfirst.
  destruct Hocc as (s & e & Hs & Ho). exact (Hfirst s e Hs Ho).
Qed.

Lemma stale_cursor_skips_witness :
  let self := __iadd__ __init__ semicolons in
  let s1 := snd (maybe_extract_until_delimiter self delim_q) in
  let s2 := snd (maybe_extract_until_delimiter s1 delim_semi) in
  wf self /\
  __bytes__ s2 = ["y"; ";"; "z"; "z"; "z"; "z"; "z"; "z"]%byte /\
  fst (maybe_extract_until_delimiter s2 delim_semi) = Ok None.
Proof.
  intros self s1 s2.
  assert (Hwf : wf self) by concrete_state.
  split; [exact Hwf|]. split; [reflexivity|].
  refine (proj1 (proj2 (stale_cursor_skips self delim_q delim_semi
                          [Lit "Q"%byte] [Lit ";"%byte] Hwf eq_refl eq_refl
                          _ _ eq_refl _ _ _))).
  - discriminate.
  - discriminate.
  - eexists. reflexivity.
  - exists 3, 4. split; [simpl; lia|].
    split; [lia|]. split; [simpl; unfold len; simpl; lia|].
    apply matches_lit. apply matches_nil.
  - intros s e Hs (H1 & H2 & H3).
    change (len (_data self)) with 10 in *. change (len delim_semi) with 1 in *.
    assert (Hse : s = 10 /\ e = 10) by lia. destruct Hse as [-> ->].
    vm_compute in H3. inversion H3.
Defined.

(** X8.  A delimiter on which [re.compile] raises is remembered all the
    same.  The first call with such a delimiter (one that starts with a
    quantifier) raises and changes nothing but the remembered delimiter;
    the same call again does not raise: it takes the delimiter for the
    remembered one and searches with the pattern compiled before, from
    [max(start, searched - len(delimiter) + 1)]. *)
Theorem failed_compile_is_remembered (self : ReceiveBuffer) (d : bytes) :
  wf self -> nothing_to_repeat d ->
  let c1 := maybe_extract_until_delimiter self d in
  let c2 := maybe_extract_until_delimiter (snd c1) d in
  fst c1 = Raise ReError /\
  snd c1 = set_delimiter self d /\
  fst c2 =
    match finditer_first (_delimiter_regex self) (_data self)
            (Z.max (_start self) (_looked_at self - len d + 1)) with
    | None => Ok None
    | Some (_, e) => Ok (Some (py_slice (_data self) (_start self) e))
    end /\
  _delimiter_regex (snd c2) = _delimiter_regex self.
Proof.
  intros [Hc Hr] (c & rest & -> & Hq) c1 c2.
  assert (Hnone : re_compile (c :: rest) = None)
    by (destruct Hq as [-> | [-> | ->]]; reflexivity).
  assert (Hne : bytes_eqb (c :: rest) (_delimiter self) = false).
  { destruct (bytes_eqb (c :: rest) (_delimiter self)) eqn:E; [|reflexivity].
    apply bytes_eqb_eq in E. rewrite <- E, Hnone in Hr. discriminate. }
  assert (Hnd : bytes_eqb (c :: rest) default_delimiter = false)
    by (destruct Hq as [-> | [-> | ->]]; reflexivity).
  assert (H1 : c1 = (Raise ReError, set_delimiter self (c :: rest))).
  { unfold c1, maybe_extract_until_delimiter, prepare_search.
    now rewrite Hne, Hnd, Hnone. }
  unfold c2. rewrite H1. cbn [fst snd]. split; [reflexivity|].
  split; [reflexivity|].
  unfold maybe_extract_until_delimiter, prepare_search.
  cbn [_delimiter _data _start _looked_at _delimiter_regex set_delimiter].
  rewrite bytes_eqb_refl.
  change (_delimiter_regex (set_delimiter self (c :: rest)))
    with (_delimiter_regex self).
  change (_data (set_delimiter self (c :: rest))) with (_data self).
  destruct (finditer_first (_delimiter_regex self) (_data self)
              (Z.max (_start self) (_looked_at self - len (c :: rest) + 1)))
    as [[s e]|]; now split.
Qed.

Lemma failed_compile_is_remembered_witness :
  let self := __iadd__ __init__ crlf_block in
  let bad := ["*"; "a"]%byte in
  wf self /\ nothing_to_repeat bad /\
  fst (maybe_extract_until_delimiter self bad) = Raise ReError /\
  fst (maybe_extract_until_delimiter
         (snd (maybe_extract_until_delimiter self bad)) bad)
    = Ok (Some crlf_block).
Proof.
  intros self bad.
  assert (Hwf : wf self) by concrete_state.
  assert (Hbad : nothing_to_repeat bad)
    by (exists "*"%byte, ["a"%byte]; split; [reflexivity | now left]).
  split; [exact Hwf|]. split; [exact Hbad|].
  destruct (failed_compile_is_remembered self bad Hwf Hbad) as (H1 & _ & H2 & _).
  split; [exact H1 | exact H2].
Defined.

(** ** What [maybe_extract_lines] returns and consumes *)

Lemma split_go_no_lf (n : nat) :
  forall s cur, (length s <= n)%nat -> ~ In LF cur ->
    Forall (fun l => ~ In LF l) (split_go line_delimiter_regex s O cur).
Proof.
  induction n as [n IH] using lt_wf_ind. intros s cur Hn Hcur.
  destruct (line_head_total s) as [|s'|s'|c s' Hlf Hcr].
  - rewrite split_go_nil. now repeat constructor.
  - rewrite split_go_lf. constructor; [exact Hcur|].
    apply (IH (length s')); [simpl in Hn; lia | lia | intros []].
  - rewrite split_go_crlf. constructor; [exact Hcur|].
    apply (IH (length s')); [simpl in Hn; lia | lia | intros []].
  - rewrite split_go_other by assumption.
    apply (IH (length s')); [simpl in Hn; lia | lia |].
    intros Hin. apply in_app_or in Hin as [Hin | [Hin | []]];
      [now apply Hcur | now apply Hlf].
Qed.

(** X9.  No line that [maybe_extract_lines] returns holds a line feed:
    every line feed of the block it consumes is taken as (part of) a line
    delimiter. *)
Theorem lines_hold_no_line_feed (self : ReceiveBuffer) (lines : list bytes) :
  wf self ->
  fst (maybe_extract_lines self) = Ok (Some lines) ->
  Forall (fun l => ~ In LF l) lines.
Proof.
  intros Hwf. rewrite (lines_unfold self Hwf).
  destruct (bytes_eqb _ [CR; LF]); [intros [= <-]; constructor|]. cbv zeta.
  pose proof (resume_position_search_pos self default_delimiter (proj1 Hwf))
    as Hp.
  destruct Hwf as [[Hs Hl] _].
  destruct (finditer_first delimiter_regex (_data self)
              (resume_position self default_delimiter)) as [[s e]|] eqn:Ef;
    [|discriminate].
  cbn [fst]. intros [= <-].
  destruct (blank_block_split (_data self) (_start self)
              (resume_position self default_delimiter) s e) as [pre Hpre];
    [lia | exact Ef |].
  set (block := py_slice (_data self) (_start self) e) in *.
  pose proof (split_go_no_lf (length block) block [] (le_n _) (fun H => H))
    as Hall.
  fold (re_split line_delimiter_regex block) in Hall.
  rewrite Hpre in Hall |- *. rewrite del_last_two_app.
  now apply Forall_app in Hall as [Hall _].
Qed.

Lemma lines_hold_no_line_feed_witness :
  let self := __iadd__ __init__ header_block in
  wf self /\ Forall (fun l => ~ In LF l) [host_line; foo_line].
Proof.
  intros self.
  assert (Hwf : wf self) by concrete_state.
  split; [exact Hwf|].
  exact (lines_hold_no_line_feed self [host_line; foo_line] Hwf eq_refl).
Defined.

(** X10.  [maybe_extract_lines] consumes nothing or at least two bytes,
    never exactly one: when it returns [None] the unconsumed bytes are as
    before; when it returns lines it has consumed at least the two bytes
    of a blank line and at most what was unconsumed; and it raises
    nothing. *)
Theorem lines_consume_none_or_two (self : ReceiveBuffer) :
  wf self ->
  let res := maybe_extract_lines self in
  let n := _start (snd res) - _start self in
  _data (snd res) = _data self /\
  ((fst res = Ok None /\ n = 0 /\ __bytes__ (snd res) = __bytes__ self) \/
   (exists lines, fst res = Ok (Some lines) /\ 2 <= n <= __len__ self)).
Proof.
  intros Hwf res n. unfold n, res. rewrite (lines_unfold self Hwf).
  pose proof (resume_position_search_pos self default_delimiter (proj1 Hwf))
    as Hp.
  destruct Hwf as [[Hs Hl] _]. unfold __len__.
  destruct (bytes_eqb _ [CR; LF]) eqn:E.
  - apply bytes_eqb_eq in E. split; [reflexivity|]. right. exists [].
    split; [reflexivity|].
    pose proof (py_slice_len_le (_data self) (_start self) (_start self + 2) Hs)
      as Hle.
    rewrite E in Hle. change (len [CR; LF]) with 2 in Hle.
    cbn [snd _start set_start]. lia.
  - cbv zeta.
    pose proof (finditer_first_spec delimiter_regex (_data self)
                  (resume_position self default_delimiter)) as H.
    destruct (finditer_first delimiter_regex (_data self)
                (resume_position self default_delimiter)) as [[s e]|].
    + split; [reflexivity|]. right. eexists. split; [reflexivity|].
      cbn [snd _start set_start].
      destruct H as (H1 & (H2 & H3 & H4) & _).
      assert (Hlen : len (py_slice (_data self) s e) = e - s)
        by (apply py_slice_len; lia).
      apply matches_default in H4.
      destruct H4 as [H4 | H4]; rewrite H4 in Hlen; unfold len in Hlen;
        simpl in Hlen; lia.
    + split; [reflexivity|]. left.
      cbn [fst snd _start set_looked_at set_delimiter set_delimiter_regex].
      split; [reflexivity|]. split; [lia | reflexivity].
Qed.

Lemma lines_consume_none_or_two_witness :
  let self := __iadd__ __init__ (LF :: abc) in
  wf self /\ _start (snd (maybe_extract_lines self)) - _start self <> 1.
Proof.
  intros self.
  assert (Hwf : wf self) by concrete_state.
  split; [exact Hwf|].
  destruct (lines_consume_none_or_two self Hwf)
    as (_ & [(_ & H & _) | (lines & _ & H)]); lia.
Defined.

(** X11.  When every search on a fresh buffer is for the default
    delimiter, [maybe_extract_lines] returns [None] exactly when the
    unconsumed region neither begins with [b"\r\n"] nor holds a blank-line
    delimiter: it never reports "no lines yet" on a buffer that holds the
    end of a header block. *)
Theorem lines_none_iff_no_blank_line (ops : list op) :
  Forall (uses_only default_delimiter) ops ->
  let self := final ops __init__ in
  fst (maybe_extract_lines self) = Ok None <->
  py_slice (_data self) (_start self) (_start self + 2) <> [CR; LF] /\
  forall s e, _start self <= s -> ~ occurs delimiter_regex (_data self) s e.
Proof.
  intros Hok self.
  assert (Hne : default_delimiter <> []) by discriminate.
  destruct (final_scanned default_delimiter delimiter_regex ops
              default_delimiter_compiled Hne __init__ init_wf
              (init_scanned _ _ Hne) Hok) as [Hwf Hsc].
  fold self in Hwf, Hsc.
  pose proof (scanned_first_occurrence self default_delimiter delimiter_regex
                Hwf default_delimiter_compiled Hne Hsc) as Hfirst.
  rewrite (until_delimiter_unfold self default_delimiter delimiter_regex Hwf
             default_delimiter_compiled) in Hfirst.
  rewrite (lines_unfold self Hwf). cbv zeta in *.
  destruct (bytes_eqb _ [CR; LF]) eqn:E.
  - apply bytes_eqb_eq in E. split; [discriminate | intros [H _]; contradiction].
  - assert (Hn : py_slice (_data self) (_start self) (_start self + 2)
                 <> [CR; LF]).
    { intros H. rewrite H in E. discriminate. }
    destruct (finditer_first delimiter_regex (_data self)
                (resume_position self default_delimiter)) as [[s e]|];
      cbn [fst first_occurrence] in *.
    + split; [discriminate|]. intros [_ Hno]. exfalso.
      destruct Hfirst as (s0 & e0 & H1 & H2 & _). exact (Hno s0 e0 H1 H2).
    + split; [intros _; split; [exact Hn | exact Hfirst] | reflexivity].
Qed.

Lemma lines_none_iff_no_blank_line_witness :
  let ops := [Append host_line; Lines; Append [CR; LF]; AtMost 2; Lines] in
  Forall (uses_only default_delimiter) ops /\
  fst (maybe_extract_lines (final ops __init__)) = Ok None.
Proof.
  intros ops.
  assert (Hok : Forall (uses_only default_delimiter) ops)
    by (repeat constructor).
  split; [exact Hok|].
  destruct (lines_none_iff_no_blank_line ops Hok) as [_ H]. apply H.
  split; [discriminate|]. intros s e Hs (H1 & H2 & H3).
  change (_data (final ops __init__)) with (host_line ++ [CR; LF]) in *.
  change (_start (final ops __init__)) with 2 in Hs.
  change (len (host_line ++ [CR; LF])) with 9 in H2.
  apply matches_default in H3.
  assert (Hlen : len (py_slice (host_line ++ [CR; LF]) s e) = e - s)
    by (apply py_slice_len; try lia; unfold len; simpl; lia).
  assert (Hcase : (s = 2 \/ s = 3 \/ s = 4 \/ s = 5 \/ s = 6 \/ s = 7) /\
                  (e = s + 2 \/ e = s + 3)).
  { destruct H3 as [H3 | H3]; rewrite H3 in Hlen; unfold len in Hlen;
      simpl in Hlen; lia. }
  destruct Hcase as [Hs' He'].
  destruct Hs' as [-> | [-> | [-> | [-> | [-> | ->]]]]];
    destruct He' as [-> | ->]; vm_compute in H3;
    destruct H3 as [H3 | H3]; discriminate H3.
Defined.

(** ** The bytes a delimiter search returns *)



(** X13.  The empty delimiter is found wherever the search starts, so a
    call with it never returns [None]: it returns the unconsumed bytes up
    to the offset the search starts from and moves [start] there.  When
    the empty delimiter is not the remembered one, that is the empty byte
    sequence, and nothing is consumed. *)
Theorem empty_delimiter_never_none (self : ReceiveBuffer) :
  wf self ->
  let res := maybe_extract_until_delimiter self [] in
  let p := search_pos (_data self) (resume_position self []) in
  fst res = Ok (Some (py_slice (_data self) (_start self) p)) /\
  _start (snd res) = p /\
  (_delimiter self <> [] -> fst res = Ok (Some []) /\ p = _start self) /\
  (_delimiter self = [] ->
   p = Z.min (Z.max (_start self) (_looked_at self + 1)) (len (_data self))).
Proof.
  intros Hwf res p. pose proof Hwf as [[Hs Hl] _].
  assert (Hf : finditer_first [] (_data self) (resume_position self []) =
               Some (p, p)).
  { unfold finditer_first. fold p.
    destruct (skipn (Z.to_nat p) (_data self)); simpl;
      now rewrite Z.add_0_r. }
  unfold res. rewrite (until_delimiter_unfold self [] [] Hwf eq_refl).
  cbv zeta. rewrite Hf. cbn [fst snd _start set_start].
  split; [reflexivity|]. split; [reflexivity|]. split.
  - intros Hne.
    assert (Hp : p = _start self).
    { unfold p, resume_position.
      destruct (bytes_eqb [] (_delimiter self)) eqn:E.
      - apply bytes_eqb_eq in E. now elim Hne.
      - apply search_pos_inside. lia. }
    rewrite Hp. now rewrite py_slice_empty.
  - intros He. unfold p, resume_position, search_pos.
    rewrite He. cbn [bytes_eqb]. change (len []) with 0. lia.
Qed.

Lemma empty_delimiter_never_none_witness :
  let self := __iadd__ __init__ abc in
  wf self /\ fst (maybe_extract_until_delimiter self []) = Ok (Some []).
Proof.
  intros self.
  assert (Hwf : wf self) by concrete_state.
  split; [exact Hwf|].
  destruct (empty_delimiter_never_none self Hwf) as (_ & _ & H & _).
  apply H. discriminate.
Defined.
